(** * Abyss Connect server: the in-memory session state and event router

    A shallow embedding of the Socket.IO handlers of [src/server.js]
    (the block [io.on('connection', (socket) => { ... })]) together with
    the four maps they share: [users], [voiceRooms], [conversations] and
    [streams].

    Conventions of the embedding.
    - A handler [socket.on(name, (data) => body)] becomes a function from
      the socket id, the payload fields the body destructures and the
      state before to the state after and the list of events the body
      emits, in emission order.
    - [uuidv4()] and [new Date().toISOString()] are inputs of the handler
      that calls them.
    - A JS [Map] is an insertion-ordered association list, a JS [Set] an
      insertion-ordered list; [forEach] is a recursion over that list.
    - A JS object used as a record with open keys (the user record and the
      login payload) is a [gmap string jsval].
    - JS values are the JSON primitives plus [undefined].  A number is
      written as an integer literal and stands for the double nearest to
      it; numbers with a fractional part are outside the model.  A string
      is given by its UTF-8 bytes.  Identifiers taken from a payload
      ([to], [with], [roomId], [streamId]) are strings.
    - [console.log] is not modelled; the [server:*] handlers only talk to
      the relational store and never write the four maps, they are left
      out. *)

From Stdlib Require Import ZArith String Ascii List Bool Lia.
From stdpp Require Import base option list strings gmap.

Local Open Scope string_scope.
Local Open Scope list_scope.

(** ** JavaScript values *)

Inductive jsval :=
| JUndefined
| JNull
| JBool (b : bool)
| JNum (z : Z)
| JStr (s : string).

(** The result of a numeric conversion: [NaN], an integer that a double
    holds, or an infinity ([Inf true] is [-Infinity]). *)
Inductive number :=
| NaN
| Int (z : Z)
| Inf (negative : bool).

(** An object with open keys: [o.k] is [undefined] when [k] is absent. *)
Abbreviation obj := (gmap string jsval).

Definition field (o : obj) (k : string) : jsval :=
  default JUndefined (o !! k).

(** [u?.k] for [u] the result of a [Map.get]. *)
Definition opt_field (u : option obj) (k : string) : jsval :=
  match u with
  | Some o => field o k
  | None => JUndefined
  end.

(** ToBoolean. *)
Definition truthy (v : jsval) : bool :=
  match v with
  | JUndefined | JNull => false
  | JBool b => b
  | JNum z => negb (z =? 0)%Z
  | JStr s => negb (s =? "")
  end.

(** [a || b] *)
Definition js_or (a b : jsval) : jsval :=
  if truthy a then a else b.

(** A destructuring default, [{ x = d } = data]: only [undefined] is
    replaced. *)
Definition or_default (v d : jsval) : jsval :=
  match v with
  | JUndefined => d
  | _ => v
  end.

(** *** Doubles *)

(** The double nearest to an integer [n >= 0], ties to the even
    significand; [None] when that is beyond the largest double, where the
    conversion gives [Infinity].  Below [2^53] every integer is a
    double. *)
Definition to_double (n : Z) : option Z :=
  if (n <? 2 ^ 53)%Z then Some n
  else
    let e := (Z.log2 n - 52)%Z in
    let q := Z.shiftr n e in
    let r := (n - Z.shiftl q e)%Z in
    let half := Z.shiftl 1 (e - 1) in
    let q' := if (half <? r)%Z || ((r =? half)%Z && Z.odd q)
              then (q + 1)%Z else q in
    let d := Z.shiftl q' e in
    if (d <? 2 ^ 1024)%Z then Some d else None.

(** The number a sign and a magnitude denote. *)
Definition number_of (sign n : Z) : number :=
  match to_double n with
  | Some d => Int (sign * d)
  | None => Inf (sign <? 0)%Z
  end.

(** The count of decimal digits of [n > 0]. *)
Fixpoint digits_fuel (fuel : nat) (n : Z) : Z :=
  match fuel with
  | O => 0%Z
  | S fuel' =>
      if (n <? 10)%Z then 1%Z else (1 + digits_fuel fuel' (n / 10))%Z
  end.

Definition digits (n : Z) : Z := digits_fuel (S (Z.to_nat (Z.log2 n))) n.

(** The decimal numeral [v] reads back as the double [d]. *)
Definition round_trips (d v : Z) : bool :=
  match to_double v with
  | Some d' => (d' =? d)%Z
  | None => false
  end.

(** Number::toString picks the decimal with the fewest significant
    digits [k] that reads back as the double, the closest one if there
    are several, the even one on a tie.  With [k] digits the candidates
    are the multiples of [10^(nd-k)] on either side of [d], where [nd]
    is the count of digits of [d]; 17 digits always suffice. *)
Fixpoint shortest (fuel : nat) (k d nd : Z) : Z :=
  match fuel with
  | O => d
  | S fuel' =>
      let p := (10 ^ (nd - k))%Z in
      let v1 := (d / p * p)%Z in
      let v2 := (v1 + p)%Z in
      match round_trips d v1, round_trips d v2 with
      | true, true =>
          if (d - v1 <? v2 - d)%Z then v1
          else if (v2 - d <? d - v1)%Z then v2
          else if Z.even (v1 / p) then v1 else v2
      | true, false => v1
      | false, true => v2
      | false, false => shortest fuel' (k + 1)%Z d nd
      end
  end.

Definition leading_digit (v : Z) : Z := (v / 10 ^ (digits v - 1))%Z.

(** *** parseInt *)

(** StrWhiteSpaceChar, in UTF-8.  One byte: TAB, LF, VT, FF, CR, SP. *)
Definition is_white (a : ascii) : bool :=
  let n := nat_of_ascii a in
  ((9 <=? n)%nat && (n <=? 13)%nat) || (n =? 32)%nat.

(** Two bytes: U+00A0. *)
Definition is_white2 (a b : ascii) : bool :=
  (nat_of_ascii a =? 194)%nat && (nat_of_ascii b =? 160)%nat.

(** Three bytes: U+1680, U+2000 to U+200A, U+2028, U+2029, U+202F,
    U+205F, U+3000, U+FEFF. *)
Definition is_white3 (a b c : ascii) : bool :=
  let x := nat_of_ascii a in
  let y := nat_of_ascii b in
  let z := nat_of_ascii c in
  ((x =? 225) && (y =? 154) && (z =? 128))%nat
  || ((x =? 226) && (y =? 128)
      && (((128 <=? z) && (z <=? 138)) || (z =? 168) || (z =? 169)
          || (z =? 175)))%nat
  || ((x =? 226) && (y =? 129) && (z =? 159))%nat
  || ((x =? 227) && (y =? 128) && (z =? 128))%nat
  || ((x =? 239) && (y =? 187) && (z =? 191))%nat.

Fixpoint trim_start (s : string) : string :=
  match s with
  | EmptyString => EmptyString
  | String a s1 =>
      if is_white a then trim_start s1
      else
        match s1 with
        | EmptyString => s
        | String b s2 =>
            if is_white2 a b then trim_start s2
            else
              match s2 with
              | EmptyString => s
              | String c s3 =>
                  if is_white3 a b c then trim_start s3 else s
              end
        end
  end.

(** The value of a code unit as a digit of the radix, if it is one. *)
Definition digit_of (radix : Z) (a : ascii) : option Z :=
  let n := Z.of_nat (nat_of_ascii a) in
  let d :=
    if (48 <=? n)%Z && (n <=? 57)%Z then Some (n - 48)%Z
    else if (97 <=? n)%Z && (n <=? 122)%Z then Some (n - 87)%Z
    else if (65 <=? n)%Z && (n <=? 90)%Z then Some (n - 55)%Z
    else None in
  match d with
  | Some v => if (v <? radix)%Z then Some v else None
  | None => None
  end.

(** Reads the longest prefix of digits; [acc] is [None] until a digit
    has been read. *)
Fixpoint read_digits (radix : Z) (s : string) (acc : option Z) : option Z :=
  match s with
  | String a s' =>
      match digit_of radix a with
      | Some d => read_digits radix s' (Some (default 0%Z acc * radix + d)%Z)
      | None => acc
      end
  | EmptyString => acc
  end.

Definition strip_hex (s : string) : option string :=
  match s with
  | String "0" (String "x" r) => Some r
  | String "0" (String "X" r) => Some r
  | _ => None
  end.

(** [parseInt] of a string, no radix given: leading white space, a sign,
    [0x] or [0X] for radix 16, then the longest run of digits; the
    result is the double nearest to the integer read (as V8 computes
    it), [NaN] when no digit is read. *)
Definition parseInt_string (s : string) : number :=
  let s1 := trim_start s in
  let '(sign, s2) :=
    match s1 with
    | String "-" r => ((-1)%Z, r)
    | String "+" r => (1%Z, r)
    | _ => (1%Z, s1)
    end in
  let '(radix, s3) :=
    match strip_hex s2 with
    | Some r => (16%Z, r)
    | None => (10%Z, s2)
    end in
  match read_digits radix s3 None with
  | Some n => number_of sign n
  | None => NaN
  end.

(** [parseInt] of a number [x], here the double nearest to the literal
    [z]: [x] is first printed.  [Infinity] prints as a word, which
    holds no digit.  Below [10^21] an integer prints as its digits,
    which read back as [x].  From [10^21] on it prints in exponent form,
    [d.ddde+n] or [de+n], of which [parseInt] reads the one digit before
    the point. *)
Definition parseInt_number (z : Z) : number :=
  let sign := if (z <? 0)%Z then (-1)%Z else 1%Z in
  match to_double (Z.abs z) with
  | None => NaN
  | Some d =>
      if (d <? 10 ^ 21)%Z then Int (sign * d)
      else Int (sign * leading_digit (shortest 17 1 d (digits d)))
  end.

(** [parseInt(v)] with no radix: [v] is first converted to a string;
    ["undefined"], ["null"], ["true"] and ["false"] start with no digit. *)
Definition parseInt (v : jsval) : number :=
  match v with
  | JNum z => parseInt_number z
  | JStr s => parseInt_string s
  | JUndefined | JNull | JBool _ => NaN
  end.

(** [x > 0] for a number: false on [NaN]. *)
Definition num_gt0 (x : number) : bool :=
  match x with
  | Int z => (0 <? z)%Z
  | Inf negative => negb negative
  | NaN => false
  end.

(** [n >= x] for [n] a size: false on [NaN]. *)
Definition size_ge (n : nat) (x : number) : bool :=
  match x with
  | Int z => (z <=? Z.of_nat n)%Z
  | Inf negative => negative
  | NaN => false
  end.

(** ** JS [Set] of strings, in insertion order *)

Abbreviation jsset := (list string).

Definition shas (x : string) (s : jsset) : bool :=
  existsb (String.eqb x) s.

Definition sadd (x : string) (s : jsset) : jsset :=
  if shas x s then s else s ++ [x].

Definition sdelete (x : string) (s : jsset) : jsset :=
  List.filter (fun y => negb (String.eqb x y)) s.

(** ** JS [Map] with string keys, in insertion order *)

Section JsMap.
Context {V : Type}.

Definition jsmap := list (string * V).

Fixpoint mget (k : string) (m : jsmap) : option V :=
  match m with
  | [] => None
  | (k', v) :: m' => if String.eqb k k' then Some v else mget k m'
  end.

Definition mhas (k : string) (m : jsmap) : bool :=
  match mget k m with
  | Some _ => true
  | None => false
  end.

(** [m.set(k, v)]: an existing key keeps its place. *)
Fixpoint mset (k : string) (v : V) (m : jsmap) : jsmap :=
  match m with
  | [] => [(k, v)]
  | (k', v') :: m' =>
      if String.eqb k k' then (k', v) :: m' else (k', v') :: mset k v m'
  end.

Definition mdelete (k : string) (m : jsmap) : jsmap :=
  List.filter (fun e => negb (String.eqb k (fst e))) m.

(** In-place mutation of the object stored under [k]
    ([m.get(k).f = ...]); nothing happens when [k] is absent. *)
Fixpoint malter (f : V -> V) (k : string) (m : jsmap) : jsmap :=
  match m with
  | [] => []
  | (k', v) :: m' =>
      if String.eqb k k' then (k', f v) :: m' else (k', v) :: malter f k m'
  end.

Definition mkeys (m : jsmap) : list string := List.map fst m.
Definition mvalues (m : jsmap) : list V := List.map snd m.
End JsMap.

Arguments jsmap : clear implicits.

(** ** The data model *)

(** A stored direct message ([dm:send]). *)
Record message := Message {
  msg_id : string;
  msg_from : string;
  msg_fromName : jsval;
  msg_fromAvatar : jsval;
  msg_to : string;
  msg_text : jsval;
  msg_type : jsval;
  msg_audioData : jsval;
  msg_timestamp : string
}.

(** A value of [voiceRooms]: [{ name, users: Set<socketId>, limit,
    createdBy }]; the rooms made at start-up have no [createdBy]. *)
Record room := Room {
  room_name : jsval;
  room_users : jsset;
  room_limit : number;
  room_createdBy : option string
}.

(** A value of [streams]. *)
Record stream := Stream {
  stream_id : string;
  stream_userId : string;
  stream_userName : jsval;
  stream_userAvatar : jsval;
  stream_quality : jsval;
  stream_fps : jsval;
  stream_viewers : jsset;
  stream_startedAt : string
}.

(** The four maps of the server, and [sids], the Socket.IO adapter's map
    from each connected socket to the set of Socket.IO rooms it has
    joined ([socket.join], [socket.leave]). *)
Record state := State {
  users : jsmap obj;
  voiceRooms : jsmap room;
  conversations : jsmap (list message);
  streams : jsmap stream;
  sids : jsmap jsset
}.

Definition set_users (f : jsmap obj -> jsmap obj) (st : state) : state :=
  State (f (users st)) (voiceRooms st) (conversations st) (streams st) (sids st).
Definition set_voiceRooms (f : jsmap room -> jsmap room) (st : state) : state :=
  State (users st) (f (voiceRooms st)) (conversations st) (streams st) (sids st).
Definition set_conversations
    (f : jsmap (list message) -> jsmap (list message)) (st : state) : state :=
  State (users st) (voiceRooms st) (f (conversations st)) (streams st) (sids st).
Definition set_streams (f : jsmap stream -> jsmap stream) (st : state) : state :=
  State (users st) (voiceRooms st) (conversations st) (f (streams st)) (sids st).
Definition set_sids (f : jsmap jsset -> jsmap jsset) (st : state) : state :=
  State (users st) (voiceRooms st) (conversations st) (streams st) (f (sids st)).

Definition room_with_users (f : jsset -> jsset) (r : room) : room :=
  Room (room_name r) (f (room_users r)) (room_limit r) (room_createdBy r).

Definition stream_with_viewers (f : jsset -> jsset) (s : stream) : stream :=
  Stream (stream_id s) (stream_userId s) (stream_userName s)
    (stream_userAvatar s) (stream_quality s) (stream_fps s)
    (f (stream_viewers s)) (stream_startedAt s).

(** The state at start-up: the three default rooms, nothing else. *)
Definition initial : state :=
  State []
    [ ("general", Room (JStr "Sala Geral") [] (Int 0) None);
      ("gaming", Room (JStr "Gaming") [] (Int 0) None);
      ("music", Room (JStr "Música") [] (Int 0) None) ]
    [] [] [].

(** ** Emitted events *)

(** Which emitter the handler used. *)
Inductive scope :=
| ToAll                                 (* io.emit *)
| ToSocket (sid : string)               (* socket.emit *)
| ToRoom (r : string)                   (* io.to(r).emit *)
| ToRoomBut (sid : string) (r : string) (* socket.to(r).emit *).

Record participant := Participant {
  part_id : string;
  part_name : jsval;
  part_avatar : jsval
}.

Record stream_item := StreamItem {
  item_id : string;
  item_userName : jsval;
  item_userAvatar : jsval;
  item_viewerCount : nat;
  item_startedAt : string
}.

(** One constructor per event name, with the fields of its payload. *)
Inductive payload :=
| User_online (id : string) (name : jsval) (status : string)
| Users_list (us : list obj)
| User_updated (o : obj)
| User_status_changed (id : string) (status : jsval)
| User_offline (id : string)
| Dm_receive (m : message)
| Dm_sent (m : message)
| Dm_typing (from : string) (name : jsval)
| Dm_history (ms : list message)
| Voice_error (msg : string)
| Voice_user_left (roomId userId : string) (userName : jsval)
| Voice_user_joined (roomId userId : string) (userName userAvatar : jsval)
| Voice_joined (roomId : string) (participants : list participant)
| Voice_room_updated (roomId : string) (userCount : nat)
| Voice_room_created (id : string) (name limit : jsval) (userCount : nat)
    (createdBy : jsval)
| Voice_offer (from : string) (offer : jsval)
| Voice_answer (from : string) (answer : jsval)
| Voice_ice_candidate (from : string) (candidate : jsval)
| Voice_speaking (userId : string) (speaking : jsval)
| Stream_started (streamId userId : string) (userName userAvatar : jsval)
| Stream_created (streamId : string)
| Stream_ended (streamId : string)
| Stream_viewer_joined (streamId : string) (viewerCount : nat)
| Stream_request_offer (viewerId : string)
| Stream_offer (from : string) (offer : jsval) (streamId : jsval)
| Stream_answer (from : string) (answer : jsval)
| Stream_list (items : list stream_item).

Definition event_name (p : payload) : string :=
  match p with
  | User_online _ _ _ => "user:online"
  | Users_list _ => "users:list"
  | User_updated _ => "user:updated"
  | User_status_changed _ _ => "user:status-changed"
  | User_offline _ => "user:offline"
  | Dm_receive _ => "dm:receive"
  | Dm_sent _ => "dm:sent"
  | Dm_typing _ _ => "dm:typing"
  | Dm_history _ => "dm:history"
  | Voice_error _ => "voice:error"
  | Voice_user_left _ _ _ => "voice:user-left"
  | Voice_user_joined _ _ _ _ => "voice:user-joined"
  | Voice_joined _ _ => "voice:joined"
  | Voice_room_updated _ _ => "voice:room-updated"
  | Voice_room_created _ _ _ _ _ => "voice:room-created"
  | Voice_offer _ _ => "voice:offer"
  | Voice_answer _ _ => "voice:answer"
  | Voice_ice_candidate _ _ => "voice:ice-candidate"
  | Voice_speaking _ _ => "voice:speaking"
  | Stream_started _ _ _ _ => "stream:started"
  | Stream_created _ => "stream:created"
  | Stream_ended _ => "stream:ended"
  | Stream_viewer_joined _ _ => "stream:viewer-joined"
  | Stream_request_offer _ => "stream:request-offer"
  | Stream_offer _ _ _ => "stream:offer"
  | Stream_answer _ _ => "stream:answer"
  | Stream_list _ => "stream:list"
  end.

Inductive emitted := Emit (sc : scope) (p : payload).

Definition ev_scope (e : emitted) : scope := let 'Emit sc _ := e in sc.
Definition ev_payload (e : emitted) : payload := let 'Emit _ p := e in p.

(** *** Who receives an emitted event

    Resolved against the adapter at the moment of the emission: every
    connected socket for [io.emit], the socket itself for [socket.emit],
    the sockets that joined the room for [io.to(r)], the same without the
    sender for [socket.to(r)]. *)
Definition in_room (r : string) (e : string * jsset) : bool := shas r (snd e).

Definition recipients (ad : jsmap jsset) (sc : scope) : list string :=
  match sc with
  | ToAll => mkeys ad
  | ToSocket c => if mhas c ad then [c] else []
  | ToRoom r => mkeys (List.filter (in_room r) ad)
  | ToRoomBut c r =>
      List.filter (fun x => negb (String.eqb c x)) (mkeys (List.filter (in_room r) ad))
  end.

(** A socket is accepted: Socket.IO puts it in the room named by its own
    id.  The body of [io.on('connection')] only registers the handlers. *)
Definition connection (c : string) (st : state) : state * list emitted :=
  (set_sids (mset c [c]) st, []).

(** [socket.join(r)] and [socket.leave(r)].  A handler runs for a
    connected socket; for a socket the adapter does not know, nothing is
    recorded. *)
Definition socket_join (c r : string) (ad : jsmap jsset) : jsmap jsset :=
  malter (sadd r) c ad.
Definition socket_leave (c r : string) (ad : jsmap jsset) : jsmap jsset :=
  malter (sdelete r) c ad.

(** What Socket.IO does to a closing socket before it fires
    ['disconnect']: the socket leaves every room and is forgotten. *)
Definition transport_close (c : string) (st : state) : state :=
  set_sids (mdelete c) st.

(** ** The handlers *)

(** *** Authentication and profile *)

(** [{ id, name: userData.name || 'Anônimo', avatar: userData.avatar ||
    null, status: 'online', ...userData }]: the spread comes last, so a
    key of [userData] wins over the four defaults. *)
Definition login_record (c : string) (userData : obj) : obj :=
  userData ∪
  <["id" := JStr c]>
  (<["name" := js_or (field userData "name") (JStr "Anônimo")]>
  (<["avatar" := js_or (field userData "avatar") JNull]>
  (<["status" := JStr "online"]> ∅))).

Definition user_login (c : string) (userData : obj) (st : state)
  : state * list emitted :=
  let st' := set_users (mset c (login_record c userData)) st in
  (st',
   [ Emit ToAll (User_online c (field userData "name") "online");
     Emit (ToSocket c) (Users_list (mvalues (users st'))) ]).

Definition user_update (c : string) (userData : obj) (st : state)
  : state * list emitted :=
  match mget c (users st) with
  | Some user =>
      (set_users (mset c (userData ∪ user)) st,
       [ Emit ToAll (User_updated (userData ∪ <["id" := JStr c]> ∅)) ])
  | None => (st, [])
  end.

Definition user_status (c : string) (status : jsval) (st : state)
  : state * list emitted :=
  match mget c (users st) with
  | Some _ =>
      (set_users (malter (insert "status" status) c) st,
       [ Emit ToAll (User_status_changed c status) ])
  | None => (st, [])
  end.

(** *** Direct messages *)

(** [[a, b].sort()]: the default order compares the strings code unit by
    code unit; the sort is stable. *)
Definition sort2 (a b : string) : list string :=
  if String.ltb b a then [b; a] else [a; b].

(** [[a, b].sort().join('-')] *)
Definition convId (a b : string) : string :=
  String.concat "-" (sort2 a b).

Record dm_data := DmData {
  dm_to : string;
  dm_text : jsval;
  dm_type : jsval;
  dm_audioData : jsval
}.

Definition make_message (c : string) (data : dm_data) (uuid now : string)
    (st : state) : message :=
  let sender := mget c (users st) in
  Message uuid c
    (js_or (opt_field sender "name") (JStr "Anônimo"))
    (opt_field sender "avatar")
    (dm_to data) (dm_text data)
    (or_default (dm_type data) (JStr "text"))
    (dm_audioData data) now.

(** [if (!conversations.has(k)) conversations.set(k, []);
     conversations.get(k).push(m)] *)
Definition append_message (k : string) (m : message)
    (cs : jsmap (list message)) : jsmap (list message) :=
  let cs1 := if mhas k cs then cs else mset k [] cs in
  malter (fun ms => ms ++ [m]) k cs1.

Definition dm_send (c : string) (data : dm_data) (uuid now : string)
    (st : state) : state * list emitted :=
  let m := make_message c data uuid now st in
  (set_conversations (append_message (convId c (dm_to data)) m) st,
   [ Emit (ToRoom (dm_to data)) (Dm_receive m);
     Emit (ToSocket c) (Dm_sent m) ]).

Definition dm_typing (c to : string) (st : state) : state * list emitted :=
  (st, [ Emit (ToRoom to) (Dm_typing c (opt_field (mget c (users st)) "name")) ]).

(** [conversations.get(convId) || []] *)
Definition history (c otherId : string) (st : state) : list message :=
  default [] (mget (convId c otherId) (conversations st)).

Definition dm_history (c otherId : string) (st : state)
  : state * list emitted :=
  (st, [ Emit (ToSocket c) (Dm_history (history c otherId st)) ]).

(** *** Voice chat *)

Definition voice_room (roomId : string) : string := "voice:" +:+ roomId.
Definition stream_room (streamId : string) : string := "stream:" +:+ streamId.

(** [room.limit > 0 && room.users.size >= room.limit] *)
Definition room_full (r : room) : bool :=
  num_gt0 (room_limit r) && size_ge (length (room_users r)) (room_limit r).

(** The [voiceRooms.forEach] of [voice:join]: the socket is taken out of
    every room that has it, leaves the Socket.IO room and the members
    that remain are told. *)
Fixpoint join_leave_others (c : string) (userName : jsval)
    (rs : jsmap room) (ad : jsmap jsset)
  : jsmap room * jsmap jsset * list emitted :=
  match rs with
  | [] => ([], ad, [])
  | (id, r) :: rs' =>
      if shas c (room_users r) then
        let '(rs'', ad', evs) :=
          join_leave_others c userName rs' (socket_leave c (voice_room id) ad) in
        ((id, room_with_users (sdelete c) r) :: rs'', ad',
         Emit (ToRoom (voice_room id)) (Voice_user_left id c userName) :: evs)
      else
        let '(rs'', ad', evs) := join_leave_others c userName rs' ad in
        ((id, r) :: rs'', ad', evs)
  end.

(** [room.users] read through the map. *)
Definition members (roomId : string) (rs : jsmap room) : jsset :=
  match mget roomId rs with
  | Some r => room_users r
  | None => []
  end.

Definition participant_of (us : jsmap obj) (id : string) : participant :=
  let u := mget id us in
  Participant id (opt_field u "name") (opt_field u "avatar").

Definition voice_join (c roomId : string) (st : state)
  : state * list emitted :=
  let user := mget c (users st) in
  match mget roomId (voiceRooms st) with
  | None => (st, [ Emit (ToSocket c) (Voice_error "Sala não encontrada") ])
  | Some room =>
      if room_full room then
        (st, [ Emit (ToSocket c) (Voice_error "Sala cheia") ])
      else
        let '(rs1, ad1, gone) :=
          join_leave_others c (opt_field user "name") (voiceRooms st) (sids st) in
        let rs2 := malter (room_with_users (sadd c)) roomId rs1 in
        let ad2 := socket_join c (voice_room roomId) ad1 in
        let st' := set_sids (fun _ => ad2) (set_voiceRooms (fun _ => rs2) st) in
        (st',
         gone ++
         [ Emit (ToRoomBut c (voice_room roomId))
             (Voice_user_joined roomId c (opt_field user "name")
                (opt_field user "avatar"));
           Emit (ToSocket c)
             (Voice_joined roomId
                (List.map (participant_of (users st)) (members roomId rs2)));
           Emit ToAll
             (Voice_room_updated roomId (length (members roomId rs2))) ])
  end.

Definition voice_leave (c roomId : string) (st : state)
  : state * list emitted :=
  let user := mget c (users st) in
  match mget roomId (voiceRooms st) with
  | Some room =>
      if shas c (room_users room) then
        let rs := malter (room_with_users (sdelete c)) roomId (voiceRooms st) in
        (set_sids (socket_leave c (voice_room roomId))
           (set_voiceRooms (fun _ => rs) st),
         [ Emit (ToRoom (voice_room roomId))
             (Voice_user_left roomId c (opt_field user "name"));
           Emit ToAll (Voice_room_updated roomId (length (members roomId rs))) ])
      else (st, [])
  | None => (st, [])
  end.

(** [uuidv4().substring(0, 8)] *)
Definition short_id (uuid : string) : string := String.substring 0 8 uuid.

Definition voice_create_room (c : string) (name limit : jsval) (uuid : string)
    (st : state) : state * list emitted :=
  let limit := or_default limit (JNum 10) in
  let roomId := short_id uuid in
  let user := mget c (users st) in
  (set_voiceRooms (mset roomId (Room name [] (parseInt limit) (Some c))) st,
   [ Emit ToAll
       (Voice_room_created roomId name limit 0 (opt_field user "name")) ]).

(** WebRTC signalling: forwarded to the Socket.IO room named [to]. *)
Definition voice_offer (c to : string) (offer : jsval) (st : state)
  : state * list emitted :=
  (st, [ Emit (ToRoom to) (Voice_offer c offer) ]).

Definition voice_answer (c to : string) (answer : jsval) (st : state)
  : state * list emitted :=
  (st, [ Emit (ToRoom to) (Voice_answer c answer) ]).

Definition voice_ice_candidate (c to : string) (candidate : jsval) (st : state)
  : state * list emitted :=
  (st, [ Emit (ToRoom to) (Voice_ice_candidate c candidate) ]).

Definition voice_speaking (c roomId : string) (speaking : jsval) (st : state)
  : state * list emitted :=
  (st, [ Emit (ToRoomBut c (voice_room roomId)) (Voice_speaking c speaking) ]).

(** *** Screen streams *)

Definition stream_start (c : string) (quality fps : jsval) (uuid now : string)
    (st : state) : state * list emitted :=
  let user := mget c (users st) in
  let streamId := short_id uuid in
  let s := Stream streamId c (opt_field user "name") (opt_field user "avatar")
             quality fps [] now in
  (set_sids (socket_join c (stream_room streamId))
     (set_streams (mset streamId s) st),
   [ Emit ToAll
       (Stream_started streamId c (opt_field user "name")
          (opt_field user "avatar"));
     Emit (ToSocket c) (Stream_created streamId) ]).

(** [if (stream && stream.userId === socket.id)] *)
Definition stream_stop (c streamId : string) (st : state)
  : state * list emitted :=
  match mget streamId (streams st) with
  | Some s =>
      if String.eqb (stream_userId s) c then
        (set_streams (mdelete streamId) st,
         [ Emit (ToRoom (stream_room streamId)) (Stream_ended streamId) ])
      else (st, [])
  | None => (st, [])
  end.

Definition viewers (streamId : string) (ss : jsmap stream) : jsset :=
  match mget streamId ss with
  | Some s => stream_viewers s
  | None => []
  end.

Definition stream_watch (c streamId : string) (st : state)
  : state * list emitted :=
  match mget streamId (streams st) with
  | Some s =>
      let ss := malter (stream_with_viewers (sadd c)) streamId (streams st) in
      (set_sids (socket_join c (stream_room streamId))
         (set_streams (fun _ => ss) st),
       [ Emit (ToRoom (stream_room streamId))
           (Stream_viewer_joined streamId (length (viewers streamId ss)));
         Emit (ToRoom (stream_userId s)) (Stream_request_offer c) ])
  | None => (st, [])
  end.

Definition stream_offer (c to : string) (offer streamId : jsval) (st : state)
  : state * list emitted :=
  (st, [ Emit (ToRoom to) (Stream_offer c offer streamId) ]).

Definition stream_answer (c to : string) (answer : jsval) (st : state)
  : state * list emitted :=
  (st, [ Emit (ToRoom to) (Stream_answer c answer) ]).

Definition stream_item_of (s : stream) : stream_item :=
  StreamItem (stream_id s) (stream_userName s) (stream_userAvatar s)
    (length (stream_viewers s)) (stream_startedAt s).

Definition stream_list (c : string) (st : state) : state * list emitted :=
  (st, [ Emit (ToSocket c)
           (Stream_list (List.map stream_item_of (mvalues (streams st)))) ]).

(** *** Disconnection *)

(** The [voiceRooms.forEach] of ['disconnect']. *)
Fixpoint disconnect_rooms (c : string) (userName : jsval) (rs : jsmap room)
  : jsmap room * list emitted :=
  match rs with
  | [] => ([], [])
  | (roomId, r) :: rs' =>
      let '(rs'', evs) := disconnect_rooms c userName rs' in
      if shas c (room_users r) then
        let r' := room_with_users (sdelete c) r in
        ((roomId, r') :: rs'',
         Emit (ToRoom (voice_room roomId)) (Voice_user_left roomId c userName)
         :: Emit ToAll (Voice_room_updated roomId (length (room_users r')))
         :: evs)
      else ((roomId, r) :: rs'', evs)
  end.

(** The [streams.forEach] of ['disconnect']: a stream of the socket is
    announced as ended and deleted; the socket is taken out of the
    viewers of every stream visited (for a deleted one this touches an
    object that is no longer in the map). *)
Fixpoint disconnect_streams (c : string) (ss : jsmap stream)
  : jsmap stream * list emitted :=
  match ss with
  | [] => ([], [])
  | (streamId, s) :: ss' =>
      let '(ss'', evs) := disconnect_streams c ss' in
      if String.eqb (stream_userId s) c then
        (ss'', Emit (ToRoom (stream_room streamId)) (Stream_ended streamId) :: evs)
      else ((streamId, stream_with_viewers (sdelete c) s) :: ss'', evs)
  end.

Definition disconnect (c : string) (st : state) : state * list emitted :=
  let user := mget c (users st) in
  let '(rs, evs1) := disconnect_rooms c (opt_field user "name") (voiceRooms st) in
  let '(ss, evs2) := disconnect_streams c (streams st) in
  (State (mdelete c (users st)) rs (conversations st) ss (sids st),
   evs1 ++ evs2 ++ [ Emit ToAll (User_offline c) ]).

(** ** The event router *)

(** What a socket can send, with the values the handler draws from
    [uuidv4] and the clock. *)
Inductive op :=
| Connection
| UserLogin (userData : obj)
| UserUpdate (userData : obj)
| UserStatus (status : jsval)
| DmSend (data : dm_data) (uuid now : string)
| DmTyping (to : string)
| DmHistory (otherId : string)
| VoiceJoin (roomId : string)
| VoiceLeave (roomId : string)
| VoiceCreateRoom (name limit : jsval) (uuid : string)
| VoiceOffer (to : string) (offer : jsval)
| VoiceAnswer (to : string) (answer : jsval)
| VoiceIceCandidate (to : string) (candidate : jsval)
| VoiceSpeaking (roomId : string) (speaking : jsval)
| StreamStart (quality fps : jsval) (uuid now : string)
| StreamStop (streamId : string)
| StreamWatch (streamId : string)
| StreamOffer (to : string) (offer streamId : jsval)
| StreamAnswer (to : string) (answer : jsval)
| StreamList
| Disconnect.

Definition step (c : string) (o : op) (st : state) : state * list emitted :=
  match o with
  | Connection => connection c st
  | UserLogin userData => user_login c userData st
  | UserUpdate userData => user_update c userData st
  | UserStatus status => user_status c status st
  | DmSend data uuid now => dm_send c data uuid now st
  | DmTyping to => dm_typing c to st
  | DmHistory otherId => dm_history c otherId st
  | VoiceJoin roomId => voice_join c roomId st
  | VoiceLeave roomId => voice_leave c roomId st
  | VoiceCreateRoom name limit uuid => voice_create_room c name limit uuid st
  | VoiceOffer to offer => voice_offer c to offer st
  | VoiceAnswer to answer => voice_answer c to answer st
  | VoiceIceCandidate to candidate => voice_ice_candidate c to candidate st
  | VoiceSpeaking roomId speaking => voice_speaking c roomId speaking st
  | StreamStart quality fps uuid now => stream_start c quality fps uuid now st
  | StreamStop streamId => stream_stop c streamId st
  | StreamWatch streamId => stream_watch c streamId st
  | StreamOffer to offer streamId => stream_offer c to offer streamId st
  | StreamAnswer to answer => stream_answer c to answer st
  | StreamList => stream_list c st
  | Disconnect => disconnect c (transport_close c st)
  end.

(** The server handles one event to completion before the next. *)
Fixpoint run (tr : list (string * op)) (st : state) : state * list emitted :=
  match tr with
  | [] => (st, [])
  | (c, o) :: tr' =>
      let '(st1, evs1) := step c o st in
      let '(st2, evs2) := run tr' st1 in
      (st2, evs1 ++ evs2)
  end.

Definition exec (tr : list (string * op)) (st : state) : state :=
  fst (run tr st).

(** ** The HTTP routes that read the maps *)

(** [GET /]: beside constants, [connections: users.size] and one
    [{ id, name, users: room.users.size }] for each voice room. *)
Record room_info := RoomInfo {
  info_id : string;
  info_name : jsval;
  info_users : nat
}.

Record root_body := RootBody {
  root_connections : nat;
  root_voiceRooms : list room_info
}.

Definition room_info_of (e : string * room) : room_info :=
  RoomInfo e.1 (room_name e.2) (length (room_users e.2)).

Definition http_root (st : state) : root_body :=
  RootBody (length (users st)) (List.map room_info_of (voiceRooms st)).

(** [GET /stats]: the sizes of the four maps. *)
Record stats_body := StatsBody {
  stats_users : nat;
  stats_voiceRooms : nat;
  stats_activeConversations : nat;
  stats_activeStreams : nat
}.

Definition http_stats (st : state) : stats_body :=
  StatsBody (length (users st)) (length (voiceRooms st))
    (length (conversations st)) (length (streams st)).

(** ** The vocabulary of the properties *)

(** *** Voice rooms *)

(** The entry of [voiceRooms] has [c] in its membership set. *)
Definition has_member (c : string) (e : string * room) : bool :=
  shas c (room_users (snd e)).

(** The ids of the rooms, in map order, whose membership set has [c]. *)
Definition rooms_of (c : string) (st : state) : list string :=
  mkeys (List.filter (has_member c) (voiceRooms st)).

(** How many rooms have [c]. *)
Definition occ (c : string) (rs : jsmap room) : nat :=
  length (List.filter (has_member c) rs).

(** The invariant carried along a run. *)
Definition rooms_ok (st : state) : Prop :=
  NoDup (mkeys (voiceRooms st)) /\ forall d, occ d (voiceRooms st) <= 1.

(** The two errors of [voice:join]. *)
Definition RoomNotFound : payload := Voice_error "Sala não encontrada".
Definition RoomFull : payload := Voice_error "Sala cheia".

(** The join answers with the error [p]. *)
Definition join_fails_with (p : payload) (c roomId : string) (st : state) : Prop :=
  exists sc, In (Emit sc p) (voice_join c roomId st).2.


(** *** Login *)

(** What leaving the caller out would be: no [user:online] emitted by the
    login of [c] has [c] among its recipients. *)
Definition online_skips_caller (c : string) (userData : obj) (st : state)
  : Prop :=
  forall e, In e (user_login c userData st).2 ->
    event_name (ev_payload e) = "user:online" ->
    ~ In c (recipients (sids (user_login c userData st).1) (ev_scope e)).

(** *** Conversations *)

(** A [dm:send] from [a] to [b] or from [b] to [a]. *)
Definition send_between (a b : string) (x : string * op) : bool :=
  match x.2 with
  | DmSend data _ _ =>
      (String.eqb x.1 a && String.eqb (dm_to data) b)
      || (String.eqb x.1 b && String.eqb (dm_to data) a)
  | _ => false
  end.

(** The message a [dm:send] builds, in a state with the users of [st]. *)
Definition sent (st : state) (x : string * op) : list message :=
  match x.2 with
  | DmSend data uuid now => [make_message x.1 data uuid now st]
  | _ => []
  end.

Definition sent_messages (st : state) (tr : list (string * op)) : list message :=
  flat_map (sent st) tr.



(** *** Identifiers *)

(** The shape of what [uuidv4()] returns: 36 characters, lower-case
    hexadecimal digits in five groups of 8, 4, 4, 4 and 12, a [4] at the
    head of the third group and one of [8], [9], [a], [b] at the head of
    the fourth. *)
Definition is_hex (a : ascii) : bool :=
  let n := nat_of_ascii a in
  ((48 <=? n)%nat && (n <=? 57)%nat) || ((97 <=? n)%nat && (n <=? 102)%nat).

Fixpoint uuid_shape (i : nat) (s : string) : bool :=
  match s with
  | EmptyString => (i =? 36)%nat
  | String a s' =>
      (if ((i =? 8) || (i =? 13) || (i =? 18) || (i =? 23))%nat
       then Ascii.eqb a "-"
       else if (i =? 14)%nat then Ascii.eqb a "4"
       else if (i =? 19)%nat
       then Ascii.eqb a "8" || Ascii.eqb a "9" || Ascii.eqb a "a" || Ascii.eqb a "b"
       else is_hex a)
      && uuid_shape (S i) s'
  end.

Definition is_uuid4 (s : string) : bool := uuid_shape 0 s.

(** *** Runs used as examples *)

(** Two login payloads, [{ name: 'Alice' }] and [{ name: 'Bob' }]. *)
Definition alice : obj := <["name" := JStr "Alice"]> ∅.
Definition bob : obj := <["name" := JStr "Bob"]> ∅.

(** A and B are both in "general". *)
Definition both_in_general : list (string * op) :=
  [ ("A", Connection); ("B", Connection);
    ("A", UserLogin alice); ("B", UserLogin bob);
    ("A", VoiceJoin "general"); ("B", VoiceJoin "general") ].

(** A is logged in and sits in "music". *)
Definition alice_online : list (string * op) :=
  [ ("A", Connection); ("A", UserLogin alice); ("A", VoiceJoin "music") ].

(** B broadcasts the stream "1b9d6bcd", A watches it. *)
Definition viewer_of_b9 : list (string * op) :=
  [ ("B", Connection); ("A", Connection);
    ("B", StreamStart (JStr "720p") (JNum 30)
            "1b9d6bcd-bbfd-4b2d-9b5d-ab8dfbbd4bed" "2024-05-01T10:00:00.000Z");
    ("A", StreamWatch "1b9d6bcd") ].

(** Three messages between A and B. *)
Definition hi_hello_bye : list (string * op) :=
  [ ("A", DmSend (DmData "B" (JStr "hi") JUndefined JUndefined)
            "0a5c1f5e-3f0b-4c62-8d0e-5f2a7f2b9c11" "2024-05-01T10:00:00.000Z");
    ("B", DmSend (DmData "A" (JStr "hello") (JStr "text") JUndefined)
            "6e1d3a72-94c8-4f6a-b1b7-0c9d4e8a2f33" "2024-05-01T10:00:01.000Z");
    ("A", DmSend (DmData "B" (JStr "bye") JUndefined JUndefined)
            "c2f7b8d0-51aa-4e09-9a3c-7d6e5f4a3b22" "2024-05-01T10:00:02.000Z") ].

(** A payload with an empty name that also names an id and a status. *)
Definition nameless : obj :=
  <["name" := JStr ""]> (<["id" := JStr "root"]> (<["status" := JStr "away"]> ∅)).

(** A creates a room, B joins it. *)
Definition room_1b9d6bcd : list (string * op) :=
  [ ("A", Connection); ("B", Connection);
    ("A", VoiceCreateRoom (JStr "Sala A") (JNum 5)
            "1b9d6bcd-bbfd-4b2d-9b5d-ab8dfbbd4bed");
    ("B", VoiceJoin "1b9d6bcd") ].

(** A creates a room with one seat and takes it. *)
Definition one_seat : list (string * op) :=
  [ ("A", Connection); ("B", Connection);
    ("A", VoiceCreateRoom (JStr "Duo") (JStr "1")
            "9f8e7d6c-5b4a-4392-8171-605f4e3d2c1b");
    ("A", VoiceJoin "9f8e7d6c") ].

(** *** Tactics *)

(** Reads the fields of an updated state. *)
Ltac st_simpl :=
  unfold transport_close in *;
  unfold set_users, set_voiceRooms, set_conversations, set_streams, set_sids in *;
  cbn [users voiceRooms conversations streams sids fst snd] in *.

(** *** The loops, entry by entry *)

(** What the loops over [voiceRooms] do to an entry: the socket is taken
    out of its membership set. *)
Definition strip_member (c : string) (e : string * room) : string * room :=
  (e.1, room_with_users (sdelete c) e.2).

(** What the loop over [streams] does to an entry it keeps. *)
Definition strip_viewer (c : string) (e : string * stream) : string * stream :=
  (e.1, stream_with_viewers (sdelete c) e.2).

(** The stream of the entry is broadcast by [c]. *)
Definition owned_by (c : string) (e : string * stream) : bool :=
  String.eqb (stream_userId e.2) c.

Definition left_event (c : string) (userName : jsval) (id : string) : emitted :=
  Emit (ToRoom (voice_room id)) (Voice_user_left id c userName).

Definition ended_event (e : string * stream) : emitted :=
  Emit (ToRoom (stream_room e.1)) (Stream_ended e.1).

(** The two events ['disconnect'] emits for a room that has the socket. *)
Definition gone_events (c : string) (userName : jsval) (e : string * room)
  : list emitted :=
  if has_member c e then
    [ left_event c userName e.1;
      Emit ToAll (Voice_room_updated e.1 (length (sdelete c (room_users e.2)))) ]
  else [].

(** *** Rooms and their limits *)

(** A room with a limit above 0 holds no more members than the limit. *)
Definition within_limit (r : room) : Prop :=
  forall z, room_limit r = Int z -> (0 < z)%Z ->
    (Z.of_nat (length (room_users r)) <= z)%Z.

Definition room_sound (e : string * room) : Prop :=
  NoDup (room_users e.2) /\ within_limit e.2.

(** One of the rooms made at start-up, as they are made. *)
Definition is_default_room (r : room) : Prop :=
  room_limit r = Int 0 /\ room_createdBy r = None.

(** What [voiceRooms.get] returns is such a room. *)
Definition default_entry (o : option room) : Prop :=
  exists r, o = Some r /\ is_default_room r.

(** Every [voice:create-room] of the run draws a well-formed UUID. *)
Definition uuids_ok (tr : list (string * op)) : bool :=
  forallb (fun x => match x.2 with
                    | VoiceCreateRoom _ _ uuid => is_uuid4 uuid
                    | _ => true
                    end) tr.

(** *** Runs the transport can produce *)

(** The transport gives a new socket an id no connected socket has, and
    hands the server events of connected sockets only; after its
    ['disconnect'] a socket sends nothing. *)
Fixpoint live (tr : list (string * op)) (st : state) : bool :=
  match tr with
  | [] => true
  | (c, o) :: tr' =>
      (match o with
       | Connection => negb (mhas c (sids st))
       | _ => mhas c (sids st)
       end)
      && live tr' (step c o st).1
  end.

(** The socket is connected. *)
Definition connected (ad : jsmap jsset) (c : string) : Prop :=
  mhas c ad = true.

(** Every socket id the maps mention is connected: the sockets with a
    user record, the members of the rooms, the broadcasters and the
    viewers of the streams. *)
Definition no_ghosts (st : state) : Prop :=
  List.Forall (fun e => connected (sids st) e.1) (users st)
  /\ List.Forall (fun e => List.Forall (connected (sids st)) (room_users e.2))
       (voiceRooms st)
  /\ List.Forall
       (fun e => connected (sids st) (stream_userId e.2)
                 /\ List.Forall (connected (sids st)) (stream_viewers e.2))
       (streams st).

(** A and B come, log in, talk, watch and sit in rooms; then A goes. *)
Definition evening : list (string * op) :=
  [ ("A", Connection); ("B", Connection);
    ("A", UserLogin alice); ("B", UserLogin bob);
    ("A", VoiceJoin "general"); ("B", VoiceJoin "general");
    ("A", StreamStart (JStr "720p") (JNum 30)
            "1b9d6bcd-bbfd-4b2d-9b5d-ab8dfbbd4bed" "2024-05-01T10:00:00.000Z");
    ("B", StreamStart (JStr "1080p") (JNum 60)
            "7c3e9a10-2d4f-4b6a-9c8e-1f0a2b3c4d5e" "2024-05-01T10:05:00.000Z");
    ("B", StreamWatch "1b9d6bcd"); ("A", StreamWatch "7c3e9a10");
    ("A", Disconnect) ].

(** *** Identifiers and the separator *)

Fixpoint has_sep (s : string) : bool :=
  match s with
  | EmptyString => false
  | String a s' => Ascii.eqb a "-" || has_sep s'
  end.

(** [{a, b} = {c, d}] *)
Definition same_pair (a b c d : string) : Prop :=
  (a = c /\ b = d) \/ (a = d /\ b = c).

(** *** Identifiers that keep conversations apart *)







(** *** Further runs used as examples *)

(** B broadcasts two streams, A watches the first. *)
Definition two_streams : list (string * op) :=
  [ ("A", Connection); ("B", Connection); ("A", UserLogin alice);
    ("B", StreamStart (JStr "720p") (JNum 30)
            "1b9d6bcd-bbfd-4b2d-9b5d-ab8dfbbd4bed" "2024-05-01T10:00:00.000Z");
    ("B", StreamStart (JStr "1080p") (JNum 60)
            "7c3e9a10-2d4f-4b6a-9c8e-1f0a2b3c4d5e" "2024-05-01T10:05:00.000Z");
    ("A", StreamWatch "1b9d6bcd") ].

(** * Properties *)

(** ** Sets and maps *)

Section SetFacts.
Implicit Types (x y : string) (s : jsset).

Lemma shas_In x s : shas x s = true <-> In x s.
Proof.
  unfold shas. rewrite existsb_exists. split.
  - intros (y & Hy & He). apply String.eqb_eq in He. now subst.
  - intros H. exists x. split; [assumption | apply String.eqb_refl].
Qed.

Lemma shas_sdelete_same x s : shas x (sdelete x s) = false.
Proof.
  induction s as [|y s IH]; simpl; [reflexivity|].
  destruct (String.eqb x y) eqn:E; simpl; [assumption|].
  now rewrite E.
Qed.

Lemma shas_sdelete_other x y s :
  x <> y -> shas y (sdelete x s) = shas y s.
Proof.
  intros Hne. induction s as [|z s IH]; simpl; [reflexivity|].
  destruct (String.eqb x z) eqn:E; simpl.
  - apply String.eqb_eq in E. subst z.
    assert (String.eqb y x = false) as -> by (apply String.eqb_neq; congruence).
    assumption.
  - now rewrite IH.
Qed.

Lemma sdelete_absent x s : shas x s = false -> sdelete x s = s.
Proof.
  induction s as [|y s IH]; simpl; [reflexivity|].
  destruct (String.eqb x y); simpl; [discriminate|].
  intros H. now rewrite IH.
Qed.

Lemma sdelete_idem x s : sdelete x (sdelete x s) = sdelete x s.
Proof. apply sdelete_absent, shas_sdelete_same. Qed.

Lemma shas_sadd_other x y s : x <> y -> shas y (sadd x s) = shas y s.
Proof.
  intros Hne. unfold sadd. destruct (shas x s); [reflexivity|].
  unfold shas. rewrite existsb_app. simpl.
  assert (String.eqb y x = false) as -> by (apply String.eqb_neq; congruence).
  now rewrite !orb_false_r.
Qed.

Lemma shas_nil x : shas x [] = false.
Proof. reflexivity. Qed.
End SetFacts.

Section MapFacts.
Context {V : Type}.
Implicit Types (k : string) (m : jsmap V).

Lemma mget_mset_same k (v : V) m : mget k (mset k v m) = Some v.
Proof.
  induction m as [|[k' v'] m IH]; simpl.
  - now rewrite String.eqb_refl.
  - destruct (String.eqb k k') eqn:E; simpl; now rewrite E.
Qed.

Lemma mget_mset_other k k' (v : V) m :
  k' <> k -> mget k' (mset k v m) = mget k' m.
Proof.
  intros Hne. induction m as [|[k0 v0] m IH]; simpl.
  - now apply String.eqb_neq in Hne as ->.
  - destruct (String.eqb k k0) eqn:E; simpl.
    + apply String.eqb_eq in E. subst k0.
      now apply String.eqb_neq in Hne as ->.
    + now rewrite IH.
Qed.

Lemma mset_absent k (v : V) m : mget k m = None -> mset k v m = m ++ [(k, v)].
Proof.
  induction m as [|[k' v'] m IH]; simpl; [reflexivity|].
  destruct (String.eqb k k'); [discriminate|].
  intros H. now rewrite IH.
Qed.

Lemma mkeys_mset_present k (v : V) m :
  mget k m <> None -> mkeys (mset k v m) = mkeys m.
Proof.
  induction m as [|[k' v'] m IH]; simpl; [congruence|].
  destruct (String.eqb k k'); simpl; [reflexivity|].
  intros H. now rewrite IH.
Qed.

Lemma mget_None_keys k m : mget k m = None <-> ~ In k (mkeys m).
Proof.
  induction m as [|[k' v'] m IH]; simpl; [tauto|].
  destruct (String.eqb k k') eqn:E.
  - apply String.eqb_eq in E. subst. split; [discriminate | tauto].
  - apply String.eqb_neq in E. rewrite IH. split; [|tauto].
    intros H [H'|H']; [congruence | tauto].
Qed.

Lemma mget_malter_same (f : V -> V) k m :
  mget k (malter f k m) = option_map f (mget k m).
Proof.
  induction m as [|[k' v'] m IH]; simpl; [reflexivity|].
  destruct (String.eqb k k') eqn:E; simpl; now rewrite E.
Qed.

Lemma mget_malter_other (f : V -> V) k k' m :
  k' <> k -> mget k' (malter f k m) = mget k' m.
Proof.
  intros Hne. induction m as [|[k0 v0] m IH]; simpl; [reflexivity|].
  destruct (String.eqb k k0) eqn:E; simpl.
  - apply String.eqb_eq in E. subst k0.
    now apply String.eqb_neq in Hne as ->.
  - now rewrite IH.
Qed.

Lemma mkeys_malter (f : V -> V) k m : mkeys (malter f k m) = mkeys m.
Proof.
  induction m as [|[k' v'] m IH]; simpl; [reflexivity|].
  destruct (String.eqb k k'); simpl; [reflexivity | now rewrite IH].
Qed.

Lemma mdelete_idem k m : mdelete k (mdelete k m) = mdelete k m.
Proof.
  unfold mdelete. induction m as [|[k' v'] m IH]; simpl; [reflexivity|].
  destruct (String.eqb k k') eqn:E; simpl; [assumption|].
  rewrite E. simpl. now rewrite IH.
Qed.

Lemma mget_mdelete_same k m : mget k (mdelete k m) = None.
Proof.
  unfold mdelete. induction m as [|[k' v'] m IH]; simpl; [reflexivity|].
  destruct (String.eqb k k') eqn:E; simpl; [assumption|]. now rewrite E.
Qed.

Lemma NoDup_mkeys_mset k (v : V) m :
  NoDup (mkeys m) -> NoDup (mkeys (mset k v m)).
Proof.
  intros Hnd. destruct (mget k m) eqn:E.
  - rewrite mkeys_mset_present; [assumption | congruence].
  - rewrite mset_absent by assumption. unfold mkeys.
    rewrite List.map_app. simpl. apply NoDup_app. repeat split.
    + assumption.
    + intros x Hx Hx'. apply list_elem_of_In in Hx.
      apply list_elem_of_In in Hx'. destruct Hx' as [<-|[]].
      now apply mget_None_keys in E.
    + apply NoDup_singleton.
Qed.
End MapFacts.

(** ** parseInt on a few limits *)

Example parseInt_examples :
  parseInt (JNum 10) = Int 10
  /\ parseInt (JStr "5") = Int 5
  /\ parseInt (JStr "  12px") = Int 12
  /\ parseInt (JStr "-0x1f") = Int (-31)
  /\ parseInt (JStr "") = NaN
  /\ parseInt (JStr "dez") = NaN
  /\ parseInt JNull = NaN.
Proof. repeat split; reflexivity. Qed.

(** A limit that is not a number never makes a room full. *)
Lemma room_full_NaN r : room_limit r = NaN -> room_full r = false.
Proof. unfold room_full. now intros ->. Qed.

(** ** Voice rooms: exclusive membership *)

Lemma length_rooms_of c st : length (rooms_of c st) = occ c (voiceRooms st).
Proof. unfold rooms_of, occ, mkeys. apply length_map. Qed.

Lemma occ_cons d id r rs :
  occ d ((id, r) :: rs) = (if shas d (room_users r) then 1 else 0) + occ d rs.
Proof.
  unfold occ. simpl. unfold has_member at 1. simpl.
  now destruct (shas d (room_users r)).
Qed.

Lemma occ_nil d : occ d [] = 0.
Proof. reflexivity. Qed.

Section LeaveOthers.
Variables (c : string) (userName : jsval).

Lemma join_leave_others_keys rs ad :
  mkeys (join_leave_others c userName rs ad).1.1 = mkeys rs.
Proof.
  revert ad. induction rs as [|[id r] rs IH]; intros ad; simpl; [reflexivity|].
  destruct (shas c (room_users r)).
  - specialize (IH (socket_leave c (voice_room id) ad)).
    destruct (join_leave_others c userName rs _) as [[rs' ad'] evs].
    simpl in *. now rewrite IH.
  - specialize (IH ad).
    destruct (join_leave_others c userName rs ad) as [[rs' ad'] evs].
    simpl in *. now rewrite IH.
Qed.

(** After the loop the socket is in no room. *)
Lemma join_leave_others_clears rs ad :
  occ c (join_leave_others c userName rs ad).1.1 = 0.
Proof.
  revert ad. induction rs as [|[id r] rs IH]; intros ad; simpl; [reflexivity|].
  destruct (shas c (room_users r)) eqn:E.
  - specialize (IH (socket_leave c (voice_room id) ad)).
    destruct (join_leave_others c userName rs _) as [[rs' ad'] evs].
    simpl in *. rewrite occ_cons. simpl.
    now rewrite shas_sdelete_same.
  - specialize (IH ad).
    destruct (join_leave_others c userName rs ad) as [[rs' ad'] evs].
    simpl in *. rewrite occ_cons. now rewrite E.
Qed.

(** The other sockets stay where they are. *)
Lemma join_leave_others_other d rs ad :
  d <> c -> occ d (join_leave_others c userName rs ad).1.1 = occ d rs.
Proof.
  intros Hne. revert ad.
  induction rs as [|[id r] rs IH]; intros ad; simpl; [reflexivity|].
  destruct (shas c (room_users r)) eqn:E.
  - specialize (IH (socket_leave c (voice_room id) ad)).
    destruct (join_leave_others c userName rs _) as [[rs' ad'] evs].
    simpl in *. rewrite !occ_cons. simpl.
    rewrite shas_sdelete_other by congruence. now rewrite IH.
  - specialize (IH ad).
    destruct (join_leave_others c userName rs ad) as [[rs' ad'] evs].
    simpl in *. rewrite !occ_cons. now rewrite IH.
Qed.

(** Only [voice:user-left] is emitted by the loop, once for each room
    that had the socket. *)
Lemma join_leave_others_events rs ad e :
  In e (join_leave_others c userName rs ad).2 ->
  exists id, e = Emit (ToRoom (voice_room id)) (Voice_user_left id c userName)
             /\ exists r, In (id, r) rs /\ shas c (room_users r) = true.
Proof.
  revert ad. induction rs as [|[id r] rs IH]; intros ad; simpl; [tauto|].
  destruct (shas c (room_users r)) eqn:E.
  - specialize (IH (socket_leave c (voice_room id) ad)).
    destruct (join_leave_others c userName rs _) as [[rs' ad'] evs].
    simpl in *. intros [<-|H].
    + exists id. split; [reflexivity|]. exists r. tauto.
    + destruct (IH H) as (id' & -> & r' & Hin & Hr').
      exists id'. split; [reflexivity|]. exists r'. tauto.
  - specialize (IH ad).
    destruct (join_leave_others c userName rs ad) as [[rs' ad'] evs].
    simpl in *. intros H.
    destruct (IH H) as (id' & -> & r' & Hin & Hr').
    exists id'. split; [reflexivity|]. exists r'. tauto.
Qed.
End LeaveOthers.

Lemma occ_malter_sadd c d k rs :
  occ d (malter (room_with_users (sadd c)) k rs)
  <= (if String.eqb c d then S (occ d rs) else occ d rs).
Proof.
  induction rs as [|[id r] rs IH]; simpl.
  - rewrite occ_nil. destruct (String.eqb c d); lia.
  - destruct (String.eqb k id); rewrite !occ_cons; simpl.
    + destruct (String.eqb c d) eqn:E.
      * destruct (shas d (sadd c (room_users r))), (shas d (room_users r)); lia.
      * apply String.eqb_neq in E. rewrite shas_sadd_other by assumption. lia.
    + destruct (String.eqb c d); lia.
Qed.

Lemma occ_malter_sdelete c d k rs :
  occ d (malter (room_with_users (sdelete c)) k rs) <= occ d rs.
Proof.
  induction rs as [|[id r] rs IH]; simpl; [lia|].
  destruct (String.eqb k id); rewrite !occ_cons; simpl; [|lia].
  destruct (String.eqb c d) eqn:E.
  - apply String.eqb_eq in E. subst d. rewrite shas_sdelete_same.
    destruct (shas c (room_users r)); lia.
  - apply String.eqb_neq in E. rewrite shas_sdelete_other by assumption. lia.
Qed.

Lemma occ_mset_empty d k n l cb rs :
  occ d (mset k (Room n [] l cb) rs) <= occ d rs.
Proof.
  induction rs as [|[id r] rs IH]; simpl; [rewrite occ_cons; simpl; lia|].
  destruct (String.eqb k id); rewrite !occ_cons; simpl; [|lia].
  destruct (shas d (room_users r)); lia.
Qed.

Lemma disconnect_rooms_keys c n rs :
  mkeys (disconnect_rooms c n rs).1 = mkeys rs.
Proof.
  induction rs as [|[id r] rs IH]; simpl; [reflexivity|].
  destruct (disconnect_rooms c n rs) as [rs' evs].
  destruct (shas c (room_users r)); simpl in *; now rewrite IH.
Qed.

Lemma occ_disconnect_rooms c d n rs :
  occ d (disconnect_rooms c n rs).1 <= occ d rs.
Proof.
  induction rs as [|[id r] rs IH]; simpl; [lia|].
  destruct (disconnect_rooms c n rs) as [rs' evs].
  destruct (shas c (room_users r)) eqn:E; simpl in *; rewrite !occ_cons; simpl;
    [|lia].
  destruct (String.eqb c d) eqn:Ecd.
  - apply String.eqb_eq in Ecd. subst d. rewrite shas_sdelete_same.
    destruct (shas c (room_users r)); lia.
  - apply String.eqb_neq in Ecd. rewrite shas_sdelete_other by assumption. lia.
Qed.

Lemma rooms_ok_initial : rooms_ok initial.
Proof.
  split.
  - apply NoDup_ListNoDup. simpl.
    repeat (constructor; [simpl; intuition discriminate|]). constructor.
  - intros d. unfold occ. simpl. lia.
Qed.

Lemma rooms_ok_step c o st : rooms_ok st -> rooms_ok (step c o st).1.
Proof.
  intros [Hnd Hocc].
  destruct o; simpl; try (split; assumption).
  - (* user:update *)
    unfold user_update. destruct (mget c (users st)); split; assumption.
  - (* user:status *)
    unfold user_status. destruct (mget c (users st)); split; assumption.
  - (* voice:join *)
    unfold voice_join. destruct (mget roomId (voiceRooms st)) as [r|];
      [|split; assumption].
    destruct (room_full r); [split; assumption|].
    pose proof (join_leave_others_keys c
      (opt_field (mget c (users st)) "name") (voiceRooms st) (sids st)) as Hk.
    pose proof (join_leave_others_clears c
      (opt_field (mget c (users st)) "name") (voiceRooms st) (sids st)) as Hc.
    pose proof (fun d => join_leave_others_other c
      (opt_field (mget c (users st)) "name") d (voiceRooms st) (sids st)) as Ho.
    destruct (join_leave_others c _ (voiceRooms st) (sids st))
      as [[rs1 ad1] gone].
    split; st_simpl.
    + now rewrite mkeys_malter, Hk.
    + intros d. pose proof (occ_malter_sadd c d roomId rs1) as Hle.
      destruct (String.eqb c d) eqn:E.
      * apply String.eqb_eq in E. subst d. lia.
      * apply String.eqb_neq in E. rewrite Ho in Hle by congruence.
        specialize (Hocc d). lia.
  - (* voice:leave *)
    unfold voice_leave. destruct (mget roomId (voiceRooms st)) as [r|];
      [|split; assumption].
    destruct (shas c (room_users r)); [|split; assumption].
    split; st_simpl.
    + now rewrite mkeys_malter.
    + intros d. pose proof (occ_malter_sdelete c d roomId (voiceRooms st)).
      specialize (Hocc d). lia.
  - (* voice:create-room *)
    split; st_simpl.
    + now apply NoDup_mkeys_mset.
    + intros d. pose proof (occ_mset_empty d (short_id uuid) name
        (parseInt (or_default limit (JNum 10))) (Some c) (voiceRooms st)).
      specialize (Hocc d). lia.
  - (* stream:stop *)
    unfold stream_stop. destruct (mget streamId (streams st)) as [s|];
      [|split; assumption].
    destruct (String.eqb (stream_userId s) c); split; assumption.
  - (* stream:watch *)
    unfold stream_watch. destruct (mget streamId (streams st));
      split; assumption.
  - (* disconnect *)
    unfold disconnect.
    pose proof (disconnect_rooms_keys c
      (opt_field (mget c (users (transport_close c st))) "name")
      (voiceRooms (transport_close c st))) as Hk.
    pose proof (fun d => occ_disconnect_rooms c d
      (opt_field (mget c (users (transport_close c st))) "name")
      (voiceRooms (transport_close c st))) as Hle.
    destruct (disconnect_rooms c _ (voiceRooms (transport_close c st)))
      as [rs evs1].
    destruct (disconnect_streams c (streams (transport_close c st)))
      as [ss evs2].
    split; st_simpl.
    + now rewrite Hk.
    + intros d. specialize (Hle d). specialize (Hocc d). lia.
Qed.

Lemma exec_cons c o tr st : exec ((c, o) :: tr) st = exec tr (step c o st).1.
Proof.
  unfold exec. simpl. destruct (step c o st) as [st1 evs1]. simpl.
  now destruct (run tr st1).
Qed.

Lemma rooms_ok_exec tr st : rooms_ok st -> rooms_ok (exec tr st).
Proof.
  revert st. induction tr as [|[c o] tr IH]; intros st H; [exact H|].
  rewrite exec_cons. apply IH, rooms_ok_step, H.
Qed.

(** A socket found in two rooms is found in one room. *)
Lemma occ_le_1_unique d rs r1 r2 room1 room2 :
  NoDup (mkeys rs) -> occ d rs <= 1 ->
  mget r1 rs = Some room1 -> shas d (room_users room1) = true ->
  mget r2 rs = Some room2 -> shas d (room_users room2) = true ->
  r1 = r2.
Proof.
  intros Hnd. induction rs as [|[id r] rs IH]; simpl; [discriminate|].
  apply NoDup_cons in Hnd as [Hid Hnd]. rewrite occ_cons.
  assert (Hpos : forall k v, mget k rs = Some v ->
                   shas d (room_users v) = true -> 1 <= occ d rs).
  { clear. induction rs as [|[id r] rs IH]; simpl; [discriminate|].
    intros k v. rewrite occ_cons. destruct (String.eqb k id).
    - intros Heq Hs. simplify_eq. rewrite Hs. lia.
    - intros H1 H2. specialize (IH _ _ H1 H2). lia. }
  intros Hle.
  destruct (String.eqb r1 id) eqn:E1, (String.eqb r2 id) eqn:E2.
  - apply String.eqb_eq in E1, E2. congruence.
  - intros Heq Hs H2 H2'. simplify_eq. rewrite Hs in Hle.
    specialize (Hpos _ _ H2 H2'). lia.
  - intros H1 H1' Heq Hs. simplify_eq. rewrite Hs in Hle.
    specialize (Hpos _ _ H1 H1'). lia.
  - intros H1 H1' H2 H2'. apply IH; try assumption.
    destruct (shas d (room_users r)); lia.
Qed.

(** C1. Along every run of the server from its initial state (any
    sockets, any events, among them [voice:join], [voice:leave] and
    ['disconnect']), the room ids are pairwise distinct and, for every
    connection [c], at most one voice room has [c] in its membership
    set. *)
Theorem voice_membership_exclusive :
  forall (tr : list (string * op)) (c : string),
    NoDup (mkeys (voiceRooms (exec tr initial)))
    /\ length (rooms_of c (exec tr initial)) <= 1.
Proof.
  intros tr c.
  destruct (rooms_ok_exec tr initial rooms_ok_initial) as [Hnd Hocc].
  split; [exact Hnd|]. rewrite length_rooms_of. apply Hocc.
Qed.

(** The same, read through [voiceRooms.get]. *)
Lemma voice_membership_unique tr c r1 r2 room1 room2 :
  mget r1 (voiceRooms (exec tr initial)) = Some room1 ->
  shas c (room_users room1) = true ->
  mget r2 (voiceRooms (exec tr initial)) = Some room2 ->
  shas c (room_users room2) = true ->
  r1 = r2.
Proof.
  destruct (rooms_ok_exec tr initial rooms_ok_initial) as [Hnd Hocc].
  apply occ_le_1_unique; [exact Hnd | apply Hocc].
Qed.

(** ** Voice rooms: the two ways a join fails *)

Lemma room_full_spec r :
  room_full r = true <->
  exists z, room_limit r = Int z /\ (0 < z)%Z
            /\ (z <= Z.of_nat (length (room_users r)))%Z.
Proof.
  unfold room_full. destruct (room_limit r) as [|z|negative]; simpl.
  - split; [discriminate | intros (z & H & _); discriminate].
  - rewrite andb_true_iff, Z.ltb_lt, Z.leb_le. split.
    + intros [H1 H2]. exists z. auto.
    + intros (z' & [= <-] & H1 & H2). auto.
  - split; [now destruct negative | intros (z & H & _); discriminate].
Qed.

Lemma voice_join_success_no_error c roomId st r :
  mget roomId (voiceRooms st) = Some r -> room_full r = false ->
  forall sc msg, ~ In (Emit sc (Voice_error msg)) (voice_join c roomId st).2.
Proof.
  intros Hr Hfull sc msg. unfold voice_join. rewrite Hr, Hfull.
  pose proof (join_leave_others_events c
    (opt_field (mget c (users st)) "name") (voiceRooms st) (sids st)) as Hev.
  destruct (join_leave_others c _ (voiceRooms st) (sids st))
    as [[rs1 ad1] gone].
  simpl in *. rewrite in_app_iff. intros [H|H].
  - destruct (Hev _ H) as (id & Heq & _). discriminate Heq.
  - simpl in H. repeat destruct H as [H|H]; try discriminate H. exact H.
Qed.

(** C6. [voice:join] answers "Sala não encontrada" exactly when the room
    id is not a key of [voiceRooms], and "Sala cheia" exactly when the
    room exists, its limit is a number greater than 0 and its membership
    set has at least that many members; whenever it answers with an
    error, the state is the one before and the error, sent to the caller
    alone, is the only event. *)
Theorem voice_join_failures :
  forall (c roomId : string) (st : state),
    (join_fails_with RoomNotFound c roomId st
       <-> mget roomId (voiceRooms st) = None)
    /\ (join_fails_with RoomFull c roomId st
       <-> exists r z, mget roomId (voiceRooms st) = Some r
                       /\ room_limit r = Int z /\ (0 < z)%Z
                       /\ (z <= Z.of_nat (length (room_users r)))%Z)
    /\ (forall msg, join_fails_with (Voice_error msg) c roomId st ->
          voice_join c roomId st = (st, [Emit (ToSocket c) (Voice_error msg)])).
Proof.
  intros c roomId st.
  destruct (mget roomId (voiceRooms st)) as [r|] eqn:Hr.
  - destruct (room_full r) eqn:Hfull.
    + (* full *)
      assert (Hrun : voice_join c roomId st = (st, [Emit (ToSocket c) RoomFull])).
      { unfold voice_join. now rewrite Hr, Hfull. }
      unfold join_fails_with. rewrite Hrun. simpl. repeat split.
      * intros (sc & [H|[]]). discriminate H.
      * discriminate.
      * intros _. apply room_full_spec in Hfull as (z & ? & ? & ?).
        exists r, z. auto.
      * intros _. exists (ToSocket c). now left.
      * intros msg (sc & [H|[]]). now injection H as <- <-.
    + (* admitted *)
      pose proof (voice_join_success_no_error c roomId st r Hr Hfull) as Hno.
      unfold join_fails_with. repeat split.
      * intros (sc & H). now apply Hno in H.
      * discriminate.
      * intros (sc & H). now apply Hno in H.
      * intros (r' & z & [= <-] & H). 
        assert (room_full r = true) by (apply room_full_spec; eauto).
        congruence.
      * intros msg (sc & H). now apply Hno in H.
  - (* unknown room *)
    assert (Hrun : voice_join c roomId st = (st, [Emit (ToSocket c) RoomNotFound])).
    { unfold voice_join. now rewrite Hr. }
    unfold join_fails_with. rewrite Hrun. simpl. repeat split.
    + intros _. exists (ToSocket c). now left.
    + intros (sc & [H|[]]). discriminate H.
    + intros (r & z & H & _). discriminate H.
    + intros msg (sc & [H|[]]). now injection H as <- <-.
Qed.

(** B asks for the one seat A holds, then for a room that does not exist. *)
Lemma voice_join_failures_witness :
  let st := exec one_seat initial in
  voice_join "B" "9f8e7d6c" st = (st, [Emit (ToSocket "B") RoomFull])
  /\ voice_join "B" "lobby" st = (st, [Emit (ToSocket "B") RoomNotFound]).
Proof.
  intros st.
  split.
  - destruct (voice_join_failures "B" "9f8e7d6c" st) as (_ & Hfull & Hsame).
    apply Hsame, Hfull.
    exists (Room (JStr "Duo") ["A"] (Int 1) (Some "A")), 1%Z.
    repeat split; intros H; discriminate H.
  - destruct (voice_join_failures "B" "lobby" st) as (Hnone & _ & Hsame).
    apply Hsame, Hnone. reflexivity.
Defined.

(** ** Streams: only the broadcaster stops a stream *)

(** C5. When the stream is registered and the requester is not its
    broadcaster, [stream:stop] returns the state it was given (the
    stream, its viewers and every other field as they were) and emits
    nothing. *)
Theorem stream_stop_not_broadcaster :
  forall (c streamId : string) (st : state) (s : stream),
    mget streamId (streams st) = Some s ->
    stream_userId s <> c ->
    stream_stop c streamId st = (st, []).
Proof.
  intros c streamId st s Hs Hne. unfold stream_stop. rewrite Hs.
  now apply String.eqb_neq in Hne as ->.
Qed.

(** B broadcasts, A watches and asks to stop the stream. *)
Lemma stream_stop_not_broadcaster_witness :
  let st := exec viewer_of_b9 initial in
  viewers "1b9d6bcd" (streams st) = ["A"]
  /\ stream_stop "A" "1b9d6bcd" st = (st, []).
Proof.
  split; [reflexivity|].
  eapply stream_stop_not_broadcaster; [reflexivity | discriminate].
Defined.

(** ** Voice rooms: what a move from one room to another announces *)

(** [voice:join] announces the new count of the room joined, never of
    another room. *)
Lemma voice_join_updates_target_only c roomId st sc r n :
  In (Emit sc (Voice_room_updated r n)) (voice_join c roomId st).2 ->
  sc = ToAll /\ r = roomId.
Proof.
  unfold voice_join. destruct (mget roomId (voiceRooms st)) as [room|].
  - destruct (room_full room).
    + simpl. intros [H|[]]. discriminate H.
    + pose proof (join_leave_others_events c
        (opt_field (mget c (users st)) "name") (voiceRooms st) (sids st)) as Hev.
      destruct (join_leave_others c _ (voiceRooms st) (sids st))
        as [[rs1 ad1] gone].
      simpl in *. rewrite in_app_iff. intros [H|H].
      * destruct (Hev _ H) as (id & Heq & _). discriminate Heq.
      * simpl in H. destruct H as [H|[H|[H|[]]]]; try discriminate H.
        now injection H as <- <- _.
  - simpl. intros [H|[]]. discriminate H.
Qed.

(** [voice:leave], for comparison, announces the new count of the room
    it empties. *)
Lemma voice_leave_updates_room c roomId st room :
  mget roomId (voiceRooms st) = Some room ->
  shas c (room_users room) = true ->
  In (Emit ToAll
        (Voice_room_updated roomId
           (length (members roomId (voiceRooms (voice_leave c roomId st).1)))))
     (voice_leave c roomId st).2.
Proof.
  intros Hr Hc. unfold voice_leave. rewrite Hr, Hc. simpl. auto.
Qed.

(** C2, on the code.  A is in "general" with B and joins "gaming": the
    members left in "general" get [voice:user-left], the count of
    "gaming" is announced to all, and no [voice:room-updated] is emitted
    for "general", whose count went from 2 to 1. *)
Theorem voice_join_vacated_room_not_announced :
  let st := exec both_in_general initial in
  let res := voice_join "A" "gaming" st in
  members "general" (voiceRooms st) = ["A"; "B"]
  /\ members "general" (voiceRooms res.1) = ["B"]
  /\ res.2 =
       [ Emit (ToRoom "voice:general")
           (Voice_user_left "general" "A" (JStr "Alice"));
         Emit (ToRoomBut "A" "voice:gaming")
           (Voice_user_joined "gaming" "A" (JStr "Alice") JNull);
         Emit (ToSocket "A")
           (Voice_joined "gaming" [Participant "A" (JStr "Alice") JNull]);
         Emit ToAll (Voice_room_updated "gaming" 1) ]
  /\ ~ In (Emit ToAll (Voice_room_updated "general" 1)) res.2.
Proof.
  intros st res. split; [reflexivity|]. split; [reflexivity|].
  split; [reflexivity|].
  intros H. apply voice_join_updates_target_only in H as [_ H].
  discriminate H.
Qed.

(** ** Disconnection, run twice *)

Lemma disconnect_rooms_clears c n rs : occ c (disconnect_rooms c n rs).1 = 0.
Proof.
  induction rs as [|[id r] rs IH]; simpl; [reflexivity|].
  destruct (disconnect_rooms c n rs) as [rs' evs].
  destruct (shas c (room_users r)) eqn:E; simpl in *; rewrite occ_cons; simpl.
  - now rewrite shas_sdelete_same.
  - now rewrite E.
Qed.

Lemma disconnect_rooms_absent c n rs :
  occ c rs = 0 -> disconnect_rooms c n rs = (rs, []).
Proof.
  induction rs as [|[id r] rs IH]; simpl; [reflexivity|].
  rewrite occ_cons. destruct (shas c (room_users r)); [lia|].
  simpl. intros H. now rewrite IH.
Qed.

Lemma disconnect_streams_twice c ss :
  disconnect_streams c (disconnect_streams c ss).1
  = ((disconnect_streams c ss).1, []).
Proof.
  induction ss as [|[id s] ss IH]; simpl; [reflexivity|].
  destruct (disconnect_streams c ss) as [ss' evs].
  destruct (String.eqb (stream_userId s) c) eqn:E; simpl in *; [exact IH|].
  rewrite IH, E. unfold stream_with_viewers. simpl.
  now rewrite sdelete_idem.
Qed.

(** C3, as the code has it.  Run for the same id again, the
    ['disconnect'] handler leaves [users], [voiceRooms], [conversations],
    [streams] (and the adapter) as the first run left them, and emits one
    event: [user:offline] for that id, to all.  The same holds for the
    whole step, the transport's clean-up included. *)
Theorem disconnect_twice :
  forall (c : string) (st : state),
    disconnect c (disconnect c st).1
      = ((disconnect c st).1, [Emit ToAll (User_offline c)])
    /\ step c Disconnect (step c Disconnect st).1
      = ((step c Disconnect st).1, [Emit ToAll (User_offline c)]).
Proof.
  assert (Hd : forall c st,
    disconnect c (disconnect c st).1
      = ((disconnect c st).1, [Emit ToAll (User_offline c)])).
  { intros c st. unfold disconnect at 2 3.
    pose proof (disconnect_rooms_clears c
      (opt_field (mget c (users st)) "name") (voiceRooms st)) as Hc.
    pose proof (disconnect_streams_twice c (streams st)) as Hs.
    destruct (disconnect_rooms c _ (voiceRooms st)) as [rs evs1].
    destruct (disconnect_streams c (streams st)) as [ss evs2].
    simpl in *. unfold disconnect. simpl.
    rewrite (disconnect_rooms_absent _ _ _ Hc), Hs, mdelete_idem.
    reflexivity. }
  intros c st. split; [apply Hd|].
  simpl. set (st0 := transport_close c st).
  assert (Hclose : transport_close c (disconnect c st0).1 = (disconnect c st0).1).
  { unfold disconnect.
    destruct (disconnect_rooms c _ (voiceRooms st0)) as [rs evs1].
    destruct (disconnect_streams c (streams st0)) as [ss evs2].
    subst st0. st_simpl. now rewrite mdelete_idem. }
  rewrite Hclose. apply Hd.
Qed.

(** C3, as stated, fails: the second run for "A" is not silent. *)
Lemma disconnect_twice_not_silent :
  let st1 := (step "A" Disconnect (exec alice_online initial)).1 in
  (step "A" Disconnect st1).2 = [Emit ToAll (User_offline "A")]
  /\ step "A" Disconnect st1 <> (st1, []).
Proof.
  intros st1.
  assert (H : (step "A" Disconnect st1).2 = [Emit ToAll (User_offline "A")])
    by reflexivity.
  split; [exact H|]. intros Heq. rewrite Heq in H. discriminate H.
Qed.

(** ** Conversations *)

Lemma ltb_asym a b : String.ltb a b = true -> String.ltb b a = false.
Proof.
  unfold String.ltb. rewrite (String.compare_antisym b a).
  now destruct (String.compare a b).
Qed.

Lemma ltb_total a b :
  String.ltb a b = false -> String.ltb b a = false -> a = b.
Proof.
  unfold String.ltb. rewrite (String.compare_antisym b a).
  destruct (String.compare a b) eqn:E; simpl; try discriminate.
  intros _ _. now apply String.compare_eq_iff.
Qed.

(** The key does not depend on who is the sender and who the peer. *)
Lemma convId_comm a b : convId a b = convId b a.
Proof.
  unfold convId, sort2.
  destruct (String.ltb b a) eqn:E1.
  - now rewrite (ltb_asym _ _ E1).
  - destruct (String.ltb a b) eqn:E2; [reflexivity|].
    now rewrite (ltb_total _ _ E2 E1).
Qed.

Lemma mget_append_message k m cs :
  mget k (append_message k m cs) = Some (default [] (mget k cs) ++ [m]).
Proof.
  unfold append_message, mhas. rewrite mget_malter_same.
  destruct (mget k cs) eqn:E.
  - now rewrite E.
  - now rewrite mget_mset_same.
Qed.

Lemma mget_append_message_other k k' m cs :
  k' <> k -> mget k' (append_message k m cs) = mget k' cs.
Proof.
  intros Hne. unfold append_message. rewrite mget_malter_other by assumption.
  destruct (mhas k cs); [reflexivity|]. now apply mget_mset_other.
Qed.

(** A send appends to the history of every pair that has its key. *)
Lemma history_dm_send a b c data uuid now st :
  convId c (dm_to data) = convId a b ->
  history a b (dm_send c data uuid now st).1
  = history a b st ++ [make_message c data uuid now st].
Proof.
  intros Hk. unfold history, dm_send. st_simpl.
  now rewrite Hk, mget_append_message.
Qed.

Lemma sent_messages_users st1 st2 tr :
  users st1 = users st2 -> sent_messages st1 tr = sent_messages st2 tr.
Proof.
  intros Hu. unfold sent_messages. induction tr as [|[c o] tr IH]; simpl;
    [reflexivity|].
  rewrite IH. f_equal. unfold sent. simpl. destruct o; try reflexivity.
  unfold make_message. now rewrite Hu.
Qed.

Lemma length_sent_messages a b st tr :
  forallb (send_between a b) tr = true ->
  length (sent_messages st tr) = length tr.
Proof.
  unfold sent_messages. induction tr as [|[c o] tr IH]; simpl; [reflexivity|].
  rewrite andb_true_iff. intros [Hx Htr]. rewrite length_app, IH by assumption.
  unfold send_between in Hx. unfold sent. simpl in *.
  now destruct o.
Qed.

Lemma history_exec_sends a b tr st :
  forallb (send_between a b) tr = true ->
  history a b (exec tr st) = history a b st ++ sent_messages st tr.
Proof.
  revert st. induction tr as [|[c o] tr IH]; intros st.
  - intros _. unfold exec. simpl. now rewrite app_nil_r.
  - cbn [forallb]. rewrite andb_true_iff. intros [Hx Htr]. rewrite exec_cons.
    unfold send_between in Hx. cbn [fst snd] in Hx.
    destruct o; try discriminate Hx.
    change (step c (DmSend data uuid now) st) with (dm_send c data uuid now st).
    change (sent_messages st ((c, DmSend data uuid now) :: tr))
      with ([make_message c data uuid now st] ++ sent_messages st tr).
    rewrite IH by assumption.
    rewrite history_dm_send.
    + rewrite (sent_messages_users (dm_send c data uuid now st).1 st tr)
        by reflexivity.
      now rewrite <- app_assoc.
    + rewrite orb_true_iff, !andb_true_iff, !String.eqb_eq in Hx.
      destruct Hx as [[-> ->]|[-> ->]]; [reflexivity | apply convId_comm].
Qed.

(** A run of nothing but sends between [a] and [b].  Starting where
    they have no conversation yet, after any number of [dm:send] between
    them, in either direction, [dm:history] returns to [a] exactly the
    messages sent, as many as the sends and in the order of the sends,
    and the history [b] gets with [a] is the same list. *)
Theorem dm_history_after_sends :
  forall (a b : string) (st : state) (tr : list (string * op)),
    forallb (send_between a b) tr = true ->
    mget (convId a b) (conversations st) = None ->
    let st' := exec tr st in
    (dm_history a b st').2 = [Emit (ToSocket a) (Dm_history (sent_messages st tr))]
    /\ length (history a b st') = length tr
    /\ history a b st' = history b a st'.
Proof.
  intros a b st tr Htr Hnone st'.
  assert (Hh : history a b st' = sent_messages st tr).
  { subst st'. rewrite history_exec_sends by assumption.
    unfold history at 1. now rewrite Hnone. }
  repeat split.
  - unfold dm_history. simpl. now rewrite Hh.
  - rewrite Hh. now apply length_sent_messages with (a := a) (b := b).
  - unfold history. now rewrite convId_comm.
Qed.

(** A and B exchange three messages. *)
Lemma dm_history_after_sends_witness :
  let st := exec [("A", Connection); ("B", Connection)] initial in
  let st' := exec hi_hello_bye st in
  (dm_history "A" "B" st').2
    = [Emit (ToSocket "A") (Dm_history (sent_messages st hi_hello_bye))]
  /\ length (history "A" "B" st') = 3
  /\ history "A" "B" st' = history "B" "A" st'.
Proof.
  apply (dm_history_after_sends "A" "B"
           (exec [("A", Connection); ("B", Connection)] initial) hi_hello_bye);
    reflexivity.
Defined.

(** *** Sends between [a] and [b] among other events

    The same holds along any run in which no other pair with the key of
    [a] and [b] sends: the history is the list of the messages sent
    between [a] and [b], each with the sender's name and avatar at the
    time of its send. *)

Lemma step_conversations c o st :
  (forall data uuid now, o <> DmSend data uuid now) ->
  conversations (step c o st).1 = conversations st.
Proof.
  intros Hno. destruct o; try reflexivity; simpl.
  - unfold user_update. now destruct (mget c (users st)).
  - unfold user_status. now destruct (mget c (users st)).
  - now contradiction (Hno data uuid now).
  - unfold voice_join. destruct (mget roomId (voiceRooms st)) as [r|];
      [|reflexivity].
    destruct (room_full r); [reflexivity|].
    now destruct (join_leave_others c _ (voiceRooms st) (sids st)) as [[? ?] ?].
  - unfold voice_leave. destruct (mget roomId (voiceRooms st)) as [r|];
      [|reflexivity].
    now destruct (shas c (room_users r)).
  - unfold stream_stop. destruct (mget streamId (streams st)) as [s|];
      [|reflexivity].
    now destruct (String.eqb (stream_userId s) c).
  - unfold stream_watch. now destruct (mget streamId (streams st)).
  - unfold disconnect.
    destruct (disconnect_rooms c _ (voiceRooms (transport_close c st))).
    now destruct (disconnect_streams c (streams (transport_close c st))).
Qed.


(** C9. The key is not injective on unordered pairs: the pairs
    ("a-b", "c") and ("a", "b-c") are different and have the key
    "a-b-c", so whatever "a-b" sends to "c" is in the history "a" gets
    with "b-c". *)
Theorem conversation_key_collision :
  exists a b c d : string,
    (a, b) <> (c, d) /\ (a, b) <> (d, c)
    /\ convId a b = convId c d
    /\ forall (st : state) (text type audioData : jsval) (uuid now : string),
         let data := DmData b text type audioData in
         In (make_message a data uuid now st)
            (history c d (dm_send a data uuid now st).1).
Proof.
  exists "a-b", "c", "a", "b-c". repeat split; try discriminate.
  intros st text type audioData uuid now data.
  rewrite history_dm_send by reflexivity.
  apply in_app_iff. right. now left.
Qed.

(** ** Login *)

(** C10. Every key the login payload carries is stored with the value
    the payload gives it, whatever the default for that key ([id],
    [name], [avatar] and [status] included); so a payload whose [name] is
    a falsy value ([null], the empty string) leaves that value, not the
    sentinel, as the stored name. *)
Theorem login_payload_overrides :
  forall (c : string) (userData : obj) (st : state) (k : string) (v : jsval),
    userData !! k = Some v ->
    let record := login_record c userData in
    mget c (users (user_login c userData st).1) = Some record
    /\ record !! k = Some v
    /\ (k = "name" -> truthy v = false ->
        field record "name" = v /\ field record "name" <> JStr "Anônimo").
Proof.
  intros c userData st k v Hk record.
  assert (Hrec : record !! k = Some v).
  { subst record. unfold login_record. now apply lookup_union_Some_l. }
  repeat split.
  - unfold user_login. st_simpl. apply mget_mset_same.
  - exact Hrec.
  - subst k. unfold field. now rewrite Hrec.
  - subst k. unfold field. rewrite Hrec. simpl. intros ->. discriminate.
Qed.

(** The login of A with [{ name: '', id: 'root', status: 'away' }]. *)
Lemma login_payload_overrides_witness :
  let record := login_record "A" nameless in
  mget "A" (users (user_login "A" nameless initial).1) = Some record
  /\ record !! "name" = Some (JStr "")
  /\ field record "name" = JStr ""
  /\ field record "name" <> JStr "Anônimo".
Proof.
  intros record.
  destruct (login_payload_overrides "A" nameless initial "name" (JStr "")
              eq_refl) as (Hget & Hname & Hfalsy).
  split; [exact Hget|]. split; [exact Hname|].
  apply Hfalsy; reflexivity.
Defined.

Example login_payload_overrides_id_status :
  login_record "A" nameless !! "id" = Some (JStr "root")
  /\ login_record "A" nameless !! "status" = Some (JStr "away")
  /\ login_record "A" nameless !! "avatar" = Some JNull.
Proof. repeat split; reflexivity. Qed.

(** The defaults are what a payload without the key gets. *)
Lemma login_record_defaults c userData :
  (userData !! "id" = None -> login_record c userData !! "id" = Some (JStr c))
  /\ (userData !! "name" = None ->
      login_record c userData !! "name" = Some (JStr "Anônimo"))
  /\ (userData !! "avatar" = None ->
      login_record c userData !! "avatar" = Some JNull)
  /\ (userData !! "status" = None ->
      login_record c userData !! "status" = Some (JStr "online")).
Proof.
  unfold login_record, field. repeat split; intros H;
    rewrite lookup_union_r by assumption; rewrite ?H; reflexivity.
Qed.

Lemma mhas_keys {V} c (m : jsmap V) : mhas c m = true <-> In c (mkeys m).
Proof.
  unfold mhas. pose proof (mget_None_keys c m) as H.
  destruct (mget c m); split.
  - intros _. destruct (in_dec string_dec c (mkeys m)) as [Hin|Hin];
      [exact Hin|]. apply H in Hin. discriminate Hin.
  - reflexivity.
  - discriminate.
  - intros Hin. exfalso. now apply H.
Qed.

(** C8, as the code has it.  [user:login] emits two events: [user:online],
    with [io.emit], which reaches every connected socket, the caller
    among them; then [users:list], the values of [users] after the
    insertion, with [socket.emit], which reaches the caller and nobody
    else. *)
Theorem login_notifications :
  forall (c : string) (userData : obj) (st : state),
    let res := user_login c userData st in
    res.2 = [ Emit ToAll (User_online c (field userData "name") "online");
              Emit (ToSocket c) (Users_list (mvalues (users res.1))) ]
    /\ recipients (sids res.1) ToAll = mkeys (sids st)
    /\ (mhas c (sids st) = true -> In c (recipients (sids res.1) ToAll))
    /\ (forall x, In x (recipients (sids res.1) (ToSocket c)) -> x = c).
Proof.
  intros c userData st res. subst res. unfold user_login. st_simpl.
  split; [reflexivity|]. split; [reflexivity|]. split.
  - intros H. now apply mhas_keys.
  - intros x. unfold recipients.
    destruct (mhas c (sids st)); intros Hx; [|destruct Hx].
    destruct Hx as [H|[]]. now symmetry.
Qed.

(** A logs in while A and B are connected. *)
Lemma login_notifications_witness :
  let st := exec [("A", Connection); ("B", Connection)] initial in
  recipients (sids (user_login "A" alice st).1) ToAll = ["A"; "B"]
  /\ In "A" (recipients (sids (user_login "A" alice st).1) ToAll).
Proof.
  intros st.
  destruct (login_notifications "A" alice st) as (_ & Hall & Hself & _).
  split; [exact Hall|]. apply Hself. reflexivity.
Defined.

(** C8, as stated, fails: with A and B connected, the [user:online] of
    A's login reaches A. *)
Lemma login_online_reaches_caller :
  let st := exec [("A", Connection); ("B", Connection)] initial in
  ~ online_skips_caller "A" alice st.
Proof.
  intros st Hskip.
  apply (Hskip (Emit ToAll (User_online "A" (JStr "Alice") "online"))).
  - left. reflexivity.
  - reflexivity.
  - left. reflexivity.
Qed.

(** ** Creating a voice room *)


(** Beyond that, [parseInt] follows the double and the way it prints:
    [2^53 + 1] is the double [2^53]; [10^21] prints as [1e+21], and a
    double just under [2 * 10^21] as [1.9999999999999997e+21]; a string
    of digits is rounded to the nearest double, to [Infinity] from 310
    digits on; U+00A0 and U+FEFF are white space, the byte A0 alone is
    not. *)
Example parseInt_beyond_safe_integers :
  parseInt (JNum (2 ^ 53 + 1)) = Int (2 ^ 53)
  /\ parseInt (JNum (10 ^ 21)) = Int 1
  /\ parseInt (JNum (- 10 ^ 21)) = Int (-1)
  /\ parseInt (JNum (2 * 10 ^ 21 - 262144)) = Int 1
  /\ parseInt (JNum (123456789 * 10 ^ 20)) = Int 1
  /\ parseInt (JNum (10 ^ 400)) = NaN
  /\ parseInt (JStr "9007199254740993") = Int 9007199254740992
  /\ parseInt (JStr "1000000000000000000000") = Int (10 ^ 21)
  /\ parseInt (JStr (String (ascii_of_nat 194) (String (ascii_of_nat 160) "7")))
     = Int 7
  /\ parseInt (JStr (String (ascii_of_nat 239) (String (ascii_of_nat 187)
                       (String (ascii_of_nat 191) "7")))) = Int 7
  /\ parseInt (JStr (String (ascii_of_nat 160) "7")) = NaN.
Proof. repeat split; vm_compute; reflexivity. Qed.




(** * Further properties of the handlers *)

(** ** More on sets and maps *)

Lemma shas_elem_of x (s : jsset) : shas x s = true <-> x ∈ s.
Proof. rewrite shas_In. symmetry. apply list_elem_of_In. Qed.

Lemma shas_sadd_same x (s : jsset) : shas x (sadd x s) = true.
Proof.
  unfold sadd. destruct (shas x s) eqn:E; [exact E|].
  unfold shas. rewrite existsb_app. simpl.
  now rewrite String.eqb_refl, !orb_true_r.
Qed.

Lemma sadd_present x (s : jsset) : shas x s = true -> sadd x s = s.
Proof. unfold sadd. now intros ->. Qed.

Lemma sadd_absent x (s : jsset) : shas x s = false -> sadd x s = s ++ [x].
Proof. unfold sadd. now intros ->. Qed.

Lemma sadd_idem x (s : jsset) : sadd x (sadd x s) = sadd x s.
Proof. apply sadd_present, shas_sadd_same. Qed.

Lemma length_sdelete_le x (s : jsset) : length (sdelete x s) <= length s.
Proof.
  induction s as [|y s IH]; simpl; [lia|].
  destruct (String.eqb x y); simpl; lia.
Qed.

Lemma length_sadd_le x (s : jsset) : length (sadd x s) <= S (length s).
Proof.
  unfold sadd. destruct (shas x s); [lia|].
  rewrite length_app. simpl. lia.
Qed.

Lemma NoDup_sdelete x (s : jsset) : NoDup s -> NoDup (sdelete x s).
Proof.
  induction 1 as [|y s Hy Hnd IH]; simpl; [constructor|].
  destruct (String.eqb x y); simpl; [exact IH|].
  constructor; [|exact IH].
  intros Hin. apply Hy. apply shas_elem_of in Hin. apply shas_elem_of.
  destruct (String.eqb x y) eqn:E.
  - apply String.eqb_eq in E. subst y. now rewrite shas_sdelete_same in Hin.
  - apply String.eqb_neq in E. now rewrite shas_sdelete_other in Hin.
Qed.

Lemma NoDup_sadd x (s : jsset) : NoDup s -> NoDup (sadd x s).
Proof.
  intros Hnd. unfold sadd. destruct (shas x s) eqn:E; [exact Hnd|].
  apply NoDup_app. repeat split; [exact Hnd | | apply NoDup_singleton].
  intros y Hy Hy'. apply list_elem_of_singleton in Hy'. subst y.
  apply shas_elem_of in Hy. congruence.
Qed.

(** A set has each member once: deleting a member makes it one shorter. *)
Lemma length_sdelete_member x (s : jsset) :
  NoDup s -> shas x s = true -> S (length (sdelete x s)) = length s.
Proof.
  induction 1 as [|y s Hy Hnd IH]; simpl; [discriminate|].
  destruct (String.eqb x y) eqn:E; simpl.
  - intros _. apply String.eqb_eq in E. subst y.
    rewrite sdelete_absent; [reflexivity|].
    destruct (shas x s) eqn:Hx; [|reflexivity].
    apply shas_elem_of in Hx. contradiction.
  - intros Hx. now rewrite IH.
Qed.

Section MoreMapFacts.
Context {V : Type}.
Implicit Types (k : string) (m : jsmap V).

Lemma mget_map_values (f : V -> V) k m :
  mget k (List.map (fun e => (e.1, f e.2)) m) = option_map f (mget k m).
Proof.
  induction m as [|[k' v] m IH]; simpl; [reflexivity|].
  now destruct (String.eqb k k').
Qed.

Lemma mget_mdelete_other k k' m : k' <> k -> mget k' (mdelete k m) = mget k' m.
Proof.
  intros Hne. unfold mdelete. induction m as [|[k0 v0] m IH]; simpl;
    [reflexivity|].
  destruct (String.eqb k k0) eqn:E; simpl.
  - apply String.eqb_eq in E. subst k0.
    now apply String.eqb_neq in Hne as ->.
  - now rewrite IH.
Qed.

Lemma mdelete_absent k m : mget k m = None -> mdelete k m = m.
Proof.
  unfold mdelete. induction m as [|[k' v] m IH]; simpl; [reflexivity|].
  destruct (String.eqb k k'); simpl; [discriminate|].
  intros H. now rewrite IH.
Qed.

Lemma mdelete_mset_absent k (v : V) m :
  mget k m = None -> mdelete k (mset k v m) = m.
Proof.
  intros H. rewrite mset_absent by assumption. unfold mdelete.
  rewrite List.filter_app. simpl. rewrite String.eqb_refl. simpl.
  rewrite app_nil_r. now apply mdelete_absent.
Qed.

Lemma malter_idem (f : V -> V) k m :
  (forall v, f (f v) = f v) -> malter f k (malter f k m) = malter f k m.
Proof.
  intros Hf. induction m as [|[k' v] m IH]; simpl; [reflexivity|].
  destruct (String.eqb k k') eqn:E; simpl; rewrite E.
  - now rewrite Hf.
  - now rewrite IH.
Qed.

(** The keys after a [set]: the same, or one more at the end. *)
Lemma mkeys_mset k (v : V) m :
  mkeys (mset k v m) = if mhas k m then mkeys m else mkeys m ++ [k].
Proof.
  unfold mhas. destruct (mget k m) eqn:E.
  - apply mkeys_mset_present. congruence.
  - rewrite mset_absent by assumption. unfold mkeys.
    now rewrite List.map_app.
Qed.

Lemma Forall_mset (P : string * V -> Prop) k (v : V) m :
  P (k, v) -> List.Forall P m -> List.Forall P (mset k v m).
Proof.
  intros Hv. induction 1 as [|[k' v'] m Hx Hm IH]; simpl.
  - repeat constructor. exact Hv.
  - destruct (String.eqb k k') eqn:E.
    + apply String.eqb_eq in E. subst k'. constructor; assumption.
    + constructor; assumption.
Qed.

(** In-place mutation touches the entry [get] returns and no other. *)
Lemma Forall_malter (P : string * V -> Prop) (f : V -> V) k m :
  (forall v, mget k m = Some v -> P (k, v) -> P (k, f v)) ->
  List.Forall P m -> List.Forall P (malter f k m).
Proof.
  intros Hf Hm. induction Hm as [|[k' v'] m Hx Hm IH]; simpl; [constructor|].
  simpl in Hf. destruct (String.eqb k k') eqn:E.
  - apply String.eqb_eq in E. subst k'. constructor; [|assumption].
    now apply Hf.
  - constructor; [assumption|]. now apply IH.
Qed.

Lemma Forall_mget (P : string * V -> Prop) k v m :
  List.Forall P m -> mget k m = Some v -> P (k, v).
Proof.
  induction 1 as [|[k' v'] m Hx Hm IH]; simpl; [discriminate|].
  destruct (String.eqb k k') eqn:E.
  - apply String.eqb_eq in E. subst k'. now intros [= <-].
  - exact IH.
Qed.
End MoreMapFacts.

(** ** The loops in closed form *)

Lemma room_with_users_absent c r :
  shas c (room_users r) = false -> room_with_users (sdelete c) r = r.
Proof.
  intros H. destruct r as [n us l cb]. unfold room_with_users. simpl in *.
  now rewrite sdelete_absent.
Qed.

Lemma strip_member_absent c e : has_member c e = false -> strip_member c e = e.
Proof.
  destruct e as [id r]. unfold has_member, strip_member. simpl.
  intros H. now rewrite room_with_users_absent.
Qed.

Lemma join_leave_others_rooms c n rs ad :
  (join_leave_others c n rs ad).1.1 = List.map (strip_member c) rs.
Proof.
  revert ad. induction rs as [|[id r] rs IH]; intros ad; [reflexivity|].
  cbn [join_leave_others List.map].
  destruct (shas c (room_users r)) eqn:E.
  - specialize (IH (socket_leave c (voice_room id) ad)).
    destruct (join_leave_others c n rs _) as [[rs' ad'] evs].
    cbn [fst] in *. now rewrite IH.
  - specialize (IH ad).
    destruct (join_leave_others c n rs ad) as [[rs' ad'] evs].
    cbn [fst] in *. rewrite IH. now rewrite (strip_member_absent c (id, r)).
Qed.

Lemma join_leave_others_left c n rs ad :
  (join_leave_others c n rs ad).2
  = List.map (left_event c n) (mkeys (List.filter (has_member c) rs)).
Proof.
  revert ad. induction rs as [|[id r] rs IH]; intros ad; [reflexivity|].
  cbn [join_leave_others List.filter]. unfold has_member at 1. cbn [snd].
  destruct (shas c (room_users r)) eqn:E.
  - specialize (IH (socket_leave c (voice_room id) ad)).
    destruct (join_leave_others c n rs _) as [[rs' ad'] evs].
    cbn [snd] in *. now rewrite IH.
  - specialize (IH ad).
    destruct (join_leave_others c n rs ad) as [[rs' ad'] evs].
    cbn [snd] in *. exact IH.
Qed.

Lemma disconnect_rooms_closed c n rs :
  disconnect_rooms c n rs
  = (List.map (strip_member c) rs, flat_map (gone_events c n) rs).
Proof.
  induction rs as [|[id r] rs IH]; [reflexivity|].
  cbn [disconnect_rooms List.map flat_map]. rewrite IH.
  destruct (shas c (room_users r)) eqn:E.
  - assert (gone_events c n (id, r)
            = [ left_event c n id;
                Emit ToAll (Voice_room_updated id
                              (length (sdelete c (room_users r)))) ]) as ->
      by (unfold gone_events, has_member; cbn [fst snd]; now rewrite E).
    reflexivity.
  - assert (gone_events c n (id, r) = []) as ->
      by (unfold gone_events, has_member; cbn [fst snd]; now rewrite E).
    now rewrite (strip_member_absent c (id, r)).
Qed.

Lemma disconnect_streams_closed c ss :
  disconnect_streams c ss
  = (List.map (strip_viewer c)
       (List.filter (fun e => negb (owned_by c e)) ss),
     List.map ended_event (List.filter (owned_by c) ss)).
Proof.
  induction ss as [|[id s] ss IH]; [reflexivity|].
  cbn [disconnect_streams List.filter]. rewrite IH.
  change (owned_by c (id, s)) with (String.eqb (stream_userId s) c).
  now destruct (String.eqb (stream_userId s) c).
Qed.

Lemma members_strip c k rs :
  members k (List.map (strip_member c) rs) = sdelete c (members k rs).
Proof.
  unfold members, strip_member.
  rewrite (mget_map_values (room_with_users (sdelete c))).
  now destruct (mget k rs).
Qed.

(** ** Voice rooms: leaving *)

(** X1. [voice:leave] for a room the socket is not in, or that does not
    exist, changes nothing and emits nothing. *)
Theorem voice_leave_not_member :
  forall (c roomId : string) (st : state),
    shas c (members roomId (voiceRooms st)) = false ->
    voice_leave c roomId st = (st, []).
Proof.
  intros c roomId st. unfold members, voice_leave.
  destruct (mget roomId (voiceRooms st)) as [r|]; [|reflexivity].
  now intros ->.
Qed.

(** A is in "general" with B and asks to leave "gaming", then a room
    that does not exist. *)
Lemma voice_leave_not_member_witness :
  let st := exec both_in_general initial in
  voice_leave "A" "gaming" st = (st, [])
  /\ voice_leave "A" "lobby" st = (st, []).
Proof.
  split; apply voice_leave_not_member; reflexivity.
Defined.

(** X2. [voice:leave] by a member takes the socket out of that room and of
    no other, leaves users, conversations and streams alone, tells the
    Socket.IO room of the voice room and announces the new count to all;
    in a set without repetition the new count is the old one less 1. *)
Theorem voice_leave_member :
  forall (c roomId : string) (st : state),
    shas c (members roomId (voiceRooms st)) = true ->
    let res := voice_leave c roomId st in
    let rest := sdelete c (members roomId (voiceRooms st)) in
    members roomId (voiceRooms res.1) = rest
    /\ shas c (members roomId (voiceRooms res.1)) = false
    /\ (forall k, k <> roomId ->
          mget k (voiceRooms res.1) = mget k (voiceRooms st))
    /\ mkeys (voiceRooms res.1) = mkeys (voiceRooms st)
    /\ (users res.1, conversations res.1, streams res.1)
       = (users st, conversations st, streams st)
    /\ res.2 = [ left_event c (opt_field (mget c (users st)) "name") roomId;
                 Emit ToAll (Voice_room_updated roomId (length rest)) ]
    /\ (NoDup (members roomId (voiceRooms st)) ->
          S (length rest) = length (members roomId (voiceRooms st))).
Proof.
  intros c roomId st Hc res rest. subst res rest.
  unfold voice_leave, members in *.
  destruct (mget roomId (voiceRooms st)) as [r|] eqn:Hr; [|discriminate Hc].
  rewrite Hc. st_simpl.
  rewrite mget_malter_same, Hr. simpl.
  split; [reflexivity|]. split; [apply shas_sdelete_same|].
  split; [intros k Hk; now apply mget_malter_other|].
  split; [apply mkeys_malter|]. split; [reflexivity|].
  split; [reflexivity|].
  intros Hnd. now apply length_sdelete_member.
Qed.

Lemma voice_leave_member_witness :
  let st := exec both_in_general initial in
  let res := voice_leave "A" "general" st in
  members "general" (voiceRooms res.1) = ["B"]
  /\ res.2 = [ left_event "A" (JStr "Alice") "general";
               Emit ToAll (Voice_room_updated "general" 1) ].
Proof.
  intros st res.
  destruct (voice_leave_member "A" "general" st eq_refl)
    as (Hm & _ & _ & _ & _ & Hev & _).
  split; [exact Hm | exact Hev].
Defined.

(** ** Voice rooms: a join that is admitted *)

Lemma voice_join_admitted_eq c roomId st r :
  mget roomId (voiceRooms st) = Some r -> room_full r = false ->
  let user := mget c (users st) in
  let rs := malter (room_with_users (sadd c)) roomId
              (List.map (strip_member c) (voiceRooms st)) in
  users (voice_join c roomId st).1 = users st
  /\ voiceRooms (voice_join c roomId st).1 = rs
  /\ conversations (voice_join c roomId st).1 = conversations st
  /\ streams (voice_join c roomId st).1 = streams st
  /\ (voice_join c roomId st).2
     = List.map (left_event c (opt_field user "name")) (rooms_of c st)
       ++ [ Emit (ToRoomBut c (voice_room roomId))
              (Voice_user_joined roomId c (opt_field user "name")
                 (opt_field user "avatar"));
            Emit (ToSocket c)
              (Voice_joined roomId
                 (List.map (participant_of (users st)) (members roomId rs)));
            Emit ToAll (Voice_room_updated roomId (length (members roomId rs))) ].
Proof.
  intros Hr Hfull user rs. subst user rs. unfold voice_join.
  rewrite Hr, Hfull.
  pose proof (join_leave_others_rooms c
    (opt_field (mget c (users st)) "name") (voiceRooms st) (sids st)) as Hrs.
  pose proof (join_leave_others_left c
    (opt_field (mget c (users st)) "name") (voiceRooms st) (sids st)) as Hev.
  destruct (join_leave_others c _ (voiceRooms st) (sids st))
    as [[rs1 ad1] gone].
  cbn [fst snd] in Hrs, Hev. subst rs1 gone. st_simpl.
  repeat split.
Qed.

Lemma members_after_join c roomId rs r :
  mget roomId rs = Some r ->
  members roomId
    (malter (room_with_users (sadd c)) roomId (List.map (strip_member c) rs))
  = sdelete c (room_users r) ++ [c].
Proof.
  intros Hr. unfold members. rewrite mget_malter_same.
  unfold strip_member.
  rewrite (mget_map_values (room_with_users (sdelete c))), Hr. simpl.
  apply sadd_absent, shas_sdelete_same.
Qed.

(** X3. An admitted [voice:join] puts the socket at the end of the target
    room's membership set (a socket that was already in moves to the
    end), takes it out of every other room, and leaves the other
    members, the room ids, users, conversations and streams as they
    were. *)
Theorem voice_join_admitted_state :
  forall (c roomId : string) (st : state) (r : room),
    mget roomId (voiceRooms st) = Some r ->
    room_full r = false ->
    let st' := (voice_join c roomId st).1 in
    members roomId (voiceRooms st') = sdelete c (room_users r) ++ [c]
    /\ (forall k, k <> roomId ->
          members k (voiceRooms st') = sdelete c (members k (voiceRooms st)))
    /\ mkeys (voiceRooms st') = mkeys (voiceRooms st)
    /\ (users st', conversations st', streams st')
       = (users st, conversations st, streams st).
Proof.
  intros c roomId st r Hr Hfull st'. subst st'.
  destruct (voice_join_admitted_eq c roomId st r Hr Hfull)
    as (Hu & Hrs & Hcs & Hss & _).
  rewrite Hrs, Hcs, Hss, Hu.
  split; [now apply members_after_join|].
  split.
  - intros k Hk. unfold members at 1. rewrite mget_malter_other by assumption.
    apply members_strip.
  - split; [|reflexivity]. rewrite mkeys_malter. unfold mkeys, strip_member.
    rewrite List.map_map. reflexivity.
Qed.

Lemma voice_join_admitted_state_witness :
  let st := exec both_in_general initial in
  members "general" (voiceRooms (voice_join "A" "general" st).1) = ["B"; "A"]
  /\ members "general" (voiceRooms (voice_join "A" "music" st).1) = ["B"]
  /\ members "music" (voiceRooms (voice_join "A" "music" st).1) = ["A"].
Proof.
  intros st.
  destruct (voice_join_admitted_state "A" "general" st
              (Room (JStr "Sala Geral") ["A"; "B"] (Int 0) None)
              eq_refl eq_refl) as (Hsame & _).
  destruct (voice_join_admitted_state "A" "music" st
              (Room (JStr "Música") [] (Int 0) None)
              eq_refl eq_refl) as (Hnew & Hother & _).
  split; [exact Hsame|]. split; [|exact Hnew].
  apply (Hother "general"). discriminate.
Defined.

(** X4. An admitted [voice:join] emits one [voice:user-left] for each room
    that had the socket, in map order and to that room, none for any
    other room; then [voice:user-joined] to the others in the target
    room, [voice:joined] to the caller with the members of the target
    room, the caller last, and [voice:room-updated] for the target room
    to all. *)
Theorem voice_join_admitted_events :
  forall (c roomId : string) (st : state) (r : room),
    mget roomId (voiceRooms st) = Some r ->
    room_full r = false ->
    let user := mget c (users st) in
    let now_in := sdelete c (room_users r) ++ [c] in
    (voice_join c roomId st).2
    = List.map (left_event c (opt_field user "name")) (rooms_of c st)
      ++ [ Emit (ToRoomBut c (voice_room roomId))
             (Voice_user_joined roomId c (opt_field user "name")
                (opt_field user "avatar"));
           Emit (ToSocket c)
             (Voice_joined roomId (List.map (participant_of (users st)) now_in));
           Emit ToAll (Voice_room_updated roomId (length now_in)) ].
Proof.
  intros c roomId st r Hr Hfull user now_in. subst user now_in.
  destruct (voice_join_admitted_eq c roomId st r Hr Hfull)
    as (_ & _ & _ & _ & Hev).
  rewrite Hev. now rewrite (members_after_join c roomId _ r Hr).
Qed.

Lemma voice_join_admitted_events_witness :
  let st := exec both_in_general initial in
  (voice_join "A" "general" st).2
  = [ left_event "A" (JStr "Alice") "general";
      Emit (ToRoomBut "A" "voice:general")
        (Voice_user_joined "general" "A" (JStr "Alice") JNull);
      Emit (ToSocket "A")
        (Voice_joined "general"
           [ Participant "B" (JStr "Bob") JNull;
             Participant "A" (JStr "Alice") JNull ]);
      Emit ToAll (Voice_room_updated "general" 2) ].
Proof.
  intros st.
  exact (voice_join_admitted_events "A" "general" st
           (Room (JStr "Sala Geral") ["A"; "B"] (Int 0) None) eq_refl eq_refl).
Defined.

(** ** Voice rooms: the limit is respected *)

Lemma room_sound_strip c e : room_sound e -> room_sound (strip_member c e).
Proof.
  destruct e as [id r]. unfold room_sound, within_limit, strip_member. simpl.
  intros [Hnd Hlim]. split; [now apply NoDup_sdelete|].
  intros z Hz Hpos. specialize (Hlim z Hz Hpos).
  pose proof (length_sdelete_le c (room_users r)). lia.
Qed.

Lemma room_full_false_room r z :
  room_full r = false -> room_limit r = Int z -> (0 < z)%Z ->
  (Z.of_nat (length (room_users r)) < z)%Z.
Proof.
  unfold room_full. intros Hfull Hz Hpos. rewrite Hz in Hfull. simpl in Hfull.
  apply andb_false_iff in Hfull as [H|H].
  - apply Z.ltb_ge in H. lia.
  - apply Z.leb_gt in H. exact H.
Qed.

Lemma rooms_sound_step c o st :
  List.Forall room_sound (voiceRooms st) ->
  List.Forall room_sound (voiceRooms (step c o st).1).
Proof.
  intros Hs. destruct o; simpl; try exact Hs.
  - unfold user_update. now destruct (mget c (users st)).
  - unfold user_status. now destruct (mget c (users st)).
  - (* voice:join *)
    destruct (mget roomId (voiceRooms st)) as [r|] eqn:Hr;
      [|unfold voice_join; now rewrite Hr].
    destruct (room_full r) eqn:Hfull;
      [unfold voice_join; now rewrite Hr, Hfull|].
    destruct (voice_join_admitted_eq c roomId st r Hr Hfull)
      as (_ & -> & _).
    apply Forall_malter.
    + intros v Hv _. unfold strip_member in Hv.
      rewrite (mget_map_values (room_with_users (sdelete c))), Hr in Hv.
      injection Hv as <-.
      pose proof (Forall_mget _ _ _ _ Hs Hr) as [Hnd Hlim].
      unfold room_sound, within_limit in *. simpl in *. split.
      * now apply NoDup_sadd, NoDup_sdelete.
      * intros z Hz Hpos.
        pose proof (room_full_false_room r z Hfull Hz Hpos).
        pose proof (length_sadd_le c (sdelete c (room_users r))).
        pose proof (length_sdelete_le c (room_users r)). lia.
    + apply List.Forall_map. revert Hs. apply List.Forall_impl.
      intros e. apply room_sound_strip.
  - (* voice:leave *)
    unfold voice_leave. destruct (mget roomId (voiceRooms st)) as [r|];
      [|exact Hs].
    destruct (shas c (room_users r)); [|exact Hs]. st_simpl.
    apply Forall_malter; [|exact Hs].
    intros v _ Hv. apply (room_sound_strip c (roomId, v) Hv).
  - (* voice:create-room *)
    st_simpl. apply Forall_mset; [|exact Hs].
    split; simpl; [constructor|]. intros z _ Hz. simpl. lia.
  - unfold stream_stop. destruct (mget streamId (streams st)) as [s|];
      [|exact Hs].
    now destruct (String.eqb (stream_userId s) c).
  - unfold stream_watch. now destruct (mget streamId (streams st)).
  - (* disconnect *)
    unfold disconnect. rewrite disconnect_rooms_closed.
    destruct (disconnect_streams c _) as [ss evs2]. st_simpl.
    apply List.Forall_map. revert Hs. apply List.Forall_impl.
    intros e. apply room_sound_strip.
Qed.

Lemma rooms_sound_exec tr st :
  List.Forall room_sound (voiceRooms st) ->
  List.Forall room_sound (voiceRooms (exec tr st)).
Proof.
  revert st. induction tr as [|[c o] tr IH]; intros st H; [exact H|].
  rewrite exec_cons. apply IH, rooms_sound_step, H.
Qed.

Lemma rooms_sound_initial : List.Forall room_sound (voiceRooms initial).
Proof.
  simpl. repeat constructor; simpl; intros z [= <-] Hz; lia.
Qed.

(** X5. Along every run from the initial state, a room's membership set has
    no socket twice, and a room whose limit is a number above 0 never
    holds more members than its limit. *)
Theorem room_limit_respected :
  forall (tr : list (string * op)) (id : string) (r : room),
    mget id (voiceRooms (exec tr initial)) = Some r ->
    NoDup (room_users r)
    /\ (forall z, room_limit r = Int z -> (0 < z)%Z ->
          (Z.of_nat (length (room_users r)) <= z)%Z).
Proof.
  intros tr id r Hr.
  exact (Forall_mget _ _ _ _ (rooms_sound_exec tr initial rooms_sound_initial) Hr).
Qed.

(** The room with one seat, after B tried to take it too. *)
Lemma room_limit_respected_witness :
  let tr := one_seat ++ [("B", VoiceJoin "9f8e7d6c")] in
  members "9f8e7d6c" (voiceRooms (exec tr initial)) = ["A"]
  /\ (Z.of_nat (length ["A"]) <= 1)%Z.
Proof.
  intros tr. split; [reflexivity|].
  destruct (room_limit_respected tr "9f8e7d6c"
              (Room (JStr "Duo") ["A"] (Int 1) (Some "A")) eq_refl)
    as [_ Hlim].
  apply (Hlim 1%Z); reflexivity.
Defined.

(** ** Voice rooms: the rooms made at start-up *)

Lemma uuid_shape_length i s : uuid_shape i s = true -> String.length s + i = 36.
Proof.
  revert i. induction s as [|a s IH]; intros i; simpl.
  - intros H. now apply Nat.eqb_eq in H.
  - rewrite andb_true_iff. intros [_ H]. apply IH in H. lia.
Qed.

Lemma length_substring_0 m s :
  m <= String.length s -> String.length (String.substring 0 m s) = m.
Proof.
  revert s. induction m as [|m IH]; intros s; simpl.
  - intros _. now destruct s.
  - destruct s as [|a s]; simpl; [lia|]. intros H. rewrite IH; lia.
Qed.

(** The id made from a well-formed UUID has eight characters. *)
Lemma length_short_id uuid : is_uuid4 uuid = true -> String.length (short_id uuid) = 8.
Proof.
  intros H. apply uuid_shape_length in H. unfold short_id.
  apply length_substring_0. lia.
Qed.

Lemma default_entry_strip c id rs :
  default_entry (mget id rs) ->
  default_entry (mget id (List.map (strip_member c) rs)).
Proof.
  intros (r & Hr & Hd). unfold strip_member.
  rewrite (mget_map_values (room_with_users (sdelete c))), Hr.
  exists (room_with_users (sdelete c) r). split; [reflexivity | exact Hd].
Qed.

Lemma default_entry_malter f id k rs :
  default_entry (mget id rs) ->
  default_entry (mget id (malter (room_with_users f) k rs)).
Proof.
  intros (r & Hr & Hd). destruct (string_dec id k) as [->|Hne].
  - rewrite mget_malter_same, Hr.
    exists (room_with_users f r). split; [reflexivity | exact Hd].
  - rewrite mget_malter_other by assumption. exists r. auto.
Qed.

Lemma default_entry_step c o st id :
  match o with
  | VoiceCreateRoom _ _ uuid => short_id uuid <> id
  | _ => True
  end ->
  default_entry (mget id (voiceRooms st)) ->
  default_entry (mget id (voiceRooms (step c o st).1)).
Proof.
  intros Ho Hd. destruct o; simpl; try exact Hd.
  - unfold user_update. now destruct (mget c (users st)).
  - unfold user_status. now destruct (mget c (users st)).
  - destruct (mget roomId (voiceRooms st)) as [r|] eqn:Hr;
      [|unfold voice_join; now rewrite Hr].
    destruct (room_full r) eqn:Hfull;
      [unfold voice_join; now rewrite Hr, Hfull|].
    destruct (voice_join_admitted_eq c roomId st r Hr Hfull) as (_ & -> & _).
    now apply default_entry_malter, default_entry_strip.
  - unfold voice_leave. destruct (mget roomId (voiceRooms st)) as [r|];
      [|exact Hd].
    destruct (shas c (room_users r)); [|exact Hd]. st_simpl.
    now apply default_entry_malter.
  - st_simpl. rewrite mget_mset_other by congruence. exact Hd.
  - unfold stream_stop. destruct (mget streamId (streams st)) as [s|];
      [|exact Hd].
    now destruct (String.eqb (stream_userId s) c).
  - unfold stream_watch. now destruct (mget streamId (streams st)).
  - unfold disconnect. rewrite disconnect_rooms_closed.
    destruct (disconnect_streams c _) as [ss evs2]. st_simpl.
    now apply default_entry_strip.
Qed.

Lemma default_entry_exec tr st id :
  String.length id <> 8 -> uuids_ok tr = true ->
  default_entry (mget id (voiceRooms st)) ->
  default_entry (mget id (voiceRooms (exec tr st))).
Proof.
  intros Hid. revert st. induction tr as [|[c o] tr IH]; intros st;
    [intros _ H; exact H|].
  unfold uuids_ok. cbn [forallb snd]. rewrite andb_true_iff.
  intros [Ho Htr] Hd. rewrite exec_cons. apply IH; [exact Htr|].
  apply default_entry_step; [|exact Hd].
  destruct o; try exact I. intros Heq. apply length_short_id in Ho.
  congruence.
Qed.

(** X6. As long as every room is created under a well-formed UUID, the three
    rooms made at start-up stay registered with limit 0 and no creator,
    so a [voice:join] to one of them is never answered with an error. *)
Theorem default_rooms_stay :
  forall (tr : list (string * op)) (id : string),
    uuids_ok tr = true ->
    In id ["general"; "gaming"; "music"] ->
    (exists r, mget id (voiceRooms (exec tr initial)) = Some r
               /\ room_limit r = Int 0 /\ room_createdBy r = None)
    /\ forall c msg, ~ join_fails_with (Voice_error msg) c id (exec tr initial).
Proof.
  intros tr id Htr Hid.
  assert (Hd : default_entry (mget id (voiceRooms (exec tr initial)))).
  { apply default_entry_exec; [|exact Htr|].
    - simpl in Hid. destruct Hid as [<-|[<-|[<-|[]]]]; discriminate.
    - simpl in Hid.
      destruct Hid as [<-|[<-|[<-|[]]]]; eexists; split; try reflexivity;
        split; reflexivity. }
  destruct Hd as (r & Hr & Hlim & Hcb). simpl in Hlim, Hcb. split.
  - exists r. auto.
  - intros c msg (sc & H).
    eapply voice_join_success_no_error; [exact Hr | | exact H].
    unfold room_full. now rewrite Hlim.
Qed.

Lemma default_rooms_stay_witness :
  (exists r, mget "general" (voiceRooms (exec room_1b9d6bcd initial)) = Some r
             /\ room_limit r = Int 0 /\ room_createdBy r = None)
  /\ forall c msg,
       ~ join_fails_with (Voice_error msg) c "general"
           (exec room_1b9d6bcd initial).
Proof.
  apply (default_rooms_stay room_1b9d6bcd "general"); [reflexivity|].
  left. reflexivity.
Defined.

(** ** Streams *)

(** X7. [stream:stop] by the broadcaster deletes that stream and no other,
    tells the Socket.IO room of the stream, and takes no socket out of
    that room: users, rooms, conversations and the adapter stay as they
    were. *)
Theorem stream_stop_broadcaster :
  forall (c streamId : string) (st : state) (s : stream),
    mget streamId (streams st) = Some s ->
    stream_userId s = c ->
    let res := stream_stop c streamId st in
    mget streamId (streams res.1) = None
    /\ (forall k, k <> streamId -> mget k (streams res.1) = mget k (streams st))
    /\ res.2 = [Emit (ToRoom (stream_room streamId)) (Stream_ended streamId)]
    /\ (users res.1, voiceRooms res.1, conversations res.1, sids res.1)
       = (users st, voiceRooms st, conversations st, sids st).
Proof.
  intros c streamId st s Hs Hc res. subst res. unfold stream_stop.
  rewrite Hs. apply String.eqb_eq in Hc. rewrite Hc. st_simpl.
  split; [apply mget_mdelete_same|].
  split; [intros k Hk; now apply mget_mdelete_other|].
  split; reflexivity.
Qed.

(** B stops the first of its two streams; A, who watches it, stays in
    its Socket.IO room. *)
Lemma stream_stop_broadcaster_witness :
  let st := exec two_streams initial in
  let res := stream_stop "B" "1b9d6bcd" st in
  mget "1b9d6bcd" (streams res.1) = None
  /\ mkeys (streams res.1) = ["7c3e9a10"]
  /\ mget "A" (sids res.1) = Some ["A"; "stream:1b9d6bcd"].
Proof.
  intros st res.
  destruct (stream_stop_broadcaster "B" "1b9d6bcd" st
              (Stream "1b9d6bcd" "B" JUndefined JUndefined (JStr "720p")
                 (JNum 30) ["A"] "2024-05-01T10:00:00.000Z")
              eq_refl eq_refl) as (Hgone & _ & _ & _).
  split; [exact Hgone|]. split; reflexivity.
Defined.

(** X8. A stream started under an id not in use and stopped by its
    broadcaster leaves [streams] as it was before the start; the
    broadcaster, however, stays in the Socket.IO room of the stream. *)
Theorem stream_start_stop :
  forall (c : string) (quality fps : jsval) (uuid now : string) (st : state),
    mget (short_id uuid) (streams st) = None ->
    let st1 := (stream_start c quality fps uuid now st).1 in
    let res := stream_stop c (short_id uuid) st1 in
    streams res.1 = streams st
    /\ sids res.1 = socket_join c (stream_room (short_id uuid)) (sids st)
    /\ res.2 = [ Emit (ToRoom (stream_room (short_id uuid)))
                   (Stream_ended (short_id uuid)) ].
Proof.
  intros c quality fps uuid now st Hfresh st1 res. subst res st1.
  unfold stream_stop, stream_start. st_simpl.
  rewrite mget_mset_same. simpl. rewrite String.eqb_refl. st_simpl.
  split; [now apply mdelete_mset_absent|]. split; reflexivity.
Qed.

Lemma stream_start_stop_witness :
  let st := exec [("B", Connection)] initial in
  let st1 := (stream_start "B" (JStr "720p") (JNum 30)
                "1b9d6bcd-bbfd-4b2d-9b5d-ab8dfbbd4bed"
                "2024-05-01T10:00:00.000Z" st).1 in
  let res := stream_stop "B" "1b9d6bcd" st1 in
  streams res.1 = []
  /\ sids res.1 = [("B", ["B"; "stream:1b9d6bcd"])].
Proof.
  intros st st1 res.
  destruct (stream_start_stop "B" (JStr "720p") (JNum 30)
              "1b9d6bcd-bbfd-4b2d-9b5d-ab8dfbbd4bed"
              "2024-05-01T10:00:00.000Z" st eq_refl) as (Hss & Had & _).
  split; [exact Hss | exact Had].
Defined.

Lemma stream_with_viewers_idem f s :
  (forall v, f (f v) = f v) ->
  stream_with_viewers f (stream_with_viewers f s) = stream_with_viewers f s.
Proof. intros Hf. unfold stream_with_viewers. simpl. now rewrite Hf. Qed.

Lemma stream_watch_eq c streamId st s :
  mget streamId (streams st) = Some s ->
  stream_watch c streamId st
  = (State (users st) (voiceRooms st) (conversations st)
       (malter (stream_with_viewers (sadd c)) streamId (streams st))
       (socket_join c (stream_room streamId) (sids st)),
     [ Emit (ToRoom (stream_room streamId))
         (Stream_viewer_joined streamId (length (sadd c (stream_viewers s))));
       Emit (ToRoom (stream_userId s)) (Stream_request_offer c) ]).
Proof.
  intros Hs. unfold stream_watch. rewrite Hs. unfold viewers.
  now rewrite mget_malter_same, Hs.
Qed.

(** X9. [stream:watch] on a registered stream adds the socket to the viewers
    of that stream (once, however often it watches), touches no other
    stream, reports the number of viewers to the Socket.IO room of the
    stream and asks the broadcaster for an offer naming the viewer. *)
Theorem stream_watch_registered :
  forall (c streamId : string) (st : state) (s : stream),
    mget streamId (streams st) = Some s ->
    let res := stream_watch c streamId st in
    mget streamId (streams res.1)
      = Some (stream_with_viewers (sadd c) s)
    /\ shas c (viewers streamId (streams res.1)) = true
    /\ (forall k, k <> streamId -> mget k (streams res.1) = mget k (streams st))
    /\ res.2 = [ Emit (ToRoom (stream_room streamId))
                   (Stream_viewer_joined streamId
                      (length (sadd c (stream_viewers s))));
                 Emit (ToRoom (stream_userId s)) (Stream_request_offer c) ]
    /\ stream_watch c streamId res.1 = (res.1, res.2).
Proof.
  intros c streamId st s Hs res. subst res.
  rewrite (stream_watch_eq c streamId st s Hs). cbn [fst snd streams].
  assert (Hget : mget streamId
            (malter (stream_with_viewers (sadd c)) streamId (streams st))
          = Some (stream_with_viewers (sadd c) s))
    by now rewrite mget_malter_same, Hs.
  split; [exact Hget|].
  split; [unfold viewers; rewrite Hget; apply shas_sadd_same|].
  split; [intros k Hk; now apply mget_malter_other|].
  split; [reflexivity|].
  rewrite (stream_watch_eq c streamId
             (State (users st) (voiceRooms st) (conversations st)
                (malter (stream_with_viewers (sadd c)) streamId (streams st))
                (socket_join c (stream_room streamId) (sids st)))
             (stream_with_viewers (sadd c) s) Hget).
  cbn [users voiceRooms conversations streams sids stream_with_viewers
    stream_viewers stream_userId].
  unfold socket_join. rewrite !malter_idem.
  - now rewrite sadd_idem.
  - apply sadd_idem.
  - intros v. apply stream_with_viewers_idem, sadd_idem.
Qed.

Lemma stream_watch_registered_witness :
  let st := exec two_streams initial in
  let res := stream_watch "A" "1b9d6bcd" st in
  viewers "1b9d6bcd" (streams res.1) = ["A"]
  /\ res.2 = [ Emit (ToRoom "stream:1b9d6bcd")
                 (Stream_viewer_joined "1b9d6bcd" 1);
               Emit (ToRoom "B") (Stream_request_offer "A") ]
  /\ stream_watch "A" "1b9d6bcd" res.1 = (res.1, res.2).
Proof.
  intros st res.
  destruct (stream_watch_registered "A" "1b9d6bcd" st
              (Stream "1b9d6bcd" "B" JUndefined JUndefined (JStr "720p")
                 (JNum 30) ["A"] "2024-05-01T10:00:00.000Z")
              eq_refl) as (_ & _ & _ & Hev & Hagain).
  split; [reflexivity|]. split; [exact Hev | exact Hagain].
Defined.

(** ** Disconnection *)

Lemma has_member_strip c e : has_member c (strip_member c e) = false.
Proof. unfold has_member, strip_member. simpl. apply shas_sdelete_same. Qed.

Lemma filter_none {A} (f : A -> bool) (l : list A) :
  (forall x, f x = false) -> List.filter f l = [].
Proof.
  intros H. induction l as [|x l IH]; simpl; [reflexivity|]. now rewrite H.
Qed.

Lemma disconnect_eq c st :
  disconnect c st
  = (State (mdelete c (users st))
       (List.map (strip_member c) (voiceRooms st))
       (conversations st)
       (List.map (strip_viewer c)
          (List.filter (fun e => negb (owned_by c e)) (streams st)))
       (sids st),
     flat_map (gone_events c (opt_field (mget c (users st)) "name"))
       (voiceRooms st)
     ++ List.map ended_event (List.filter (owned_by c) (streams st))
     ++ [Emit ToAll (User_offline c)]).
Proof.
  unfold disconnect.
  now rewrite disconnect_rooms_closed, disconnect_streams_closed.
Qed.

(** X10. What ['disconnect'] does, loop by loop: every room loses the socket;
    the streams the socket broadcasts are deleted and the others lose it
    as a viewer; its user record is deleted; conversations and the
    adapter are not touched.  The events are, in this order: for each
    room that had the socket, [voice:user-left] to that room and
    [voice:room-updated] with the new count to all; [stream:ended] for
    each stream deleted, to the Socket.IO room of that stream;
    [user:offline] to all. *)
Theorem disconnect_closed_form :
  forall (c : string) (st : state),
    let userName := opt_field (mget c (users st)) "name" in
    disconnect c st
    = (State (mdelete c (users st))
         (List.map (strip_member c) (voiceRooms st))
         (conversations st)
         (List.map (strip_viewer c)
            (List.filter (fun e => negb (owned_by c e)) (streams st)))
         (sids st),
       flat_map (gone_events c userName) (voiceRooms st)
       ++ List.map ended_event (List.filter (owned_by c) (streams st))
       ++ [Emit ToAll (User_offline c)]).
Proof.
  intros c st userName. subst userName. apply disconnect_eq.
Qed.

(** X11. After ['disconnect'] the socket has no user record, is in no voice
    room, broadcasts no stream and watches none; the records of the
    other sockets are as before. *)
Theorem disconnect_clears :
  forall (c : string) (st : state),
    let st' := (disconnect c st).1 in
    mget c (users st') = None
    /\ rooms_of c st' = []
    /\ (forall id s, In (id, s) (streams st') ->
          stream_userId s <> c /\ shas c (stream_viewers s) = false)
    /\ (forall d, d <> c -> mget d (users st') = mget d (users st)).
Proof.
  intros c st st'. subst st'. rewrite disconnect_eq.
  cbn [fst users voiceRooms streams]. unfold rooms_of. cbn [voiceRooms].
  split; [apply mget_mdelete_same|]. split; [|split].
  - assert (List.filter (has_member c)
              (List.map (strip_member c) (voiceRooms st)) = []) as ->;
      [|reflexivity].
    induction (voiceRooms st) as [|e rs IH]; [reflexivity|].
    cbn [List.map List.filter]. now rewrite has_member_strip.
  - intros id s Hin. apply in_map_iff in Hin as ([id' s'] & Heq & Hin).
    apply filter_In in Hin as [_ Hown]. unfold strip_viewer in Heq.
    injection Heq as <- <-. unfold owned_by in Hown. simpl in *. split.
    + apply negb_true_iff in Hown. now apply String.eqb_neq.
    + apply shas_sdelete_same.
  - intros d Hd. now apply mget_mdelete_other.
Qed.

(** ** Profile *)

(** X12. [user:update] and [user:status] from a socket that has not logged in
    change nothing and emit nothing. *)
Theorem profile_change_without_login :
  forall (c : string) (userData : obj) (status : jsval) (st : state),
    mget c (users st) = None ->
    user_update c userData st = (st, [])
    /\ user_status c status st = (st, []).
Proof.
  intros c userData status st Hc. unfold user_update, user_status.
  now rewrite Hc.
Qed.

Lemma profile_change_without_login_witness :
  let st := exec [("A", Connection)] initial in
  user_update "A" alice st = (st, [])
  /\ user_status "A" (JStr "away") st = (st, []).
Proof.
  apply profile_change_without_login. reflexivity.
Defined.

(** X13. [user:update] by a logged-in socket merges the payload into its
    record: a key of the payload gets the payload's value ([id]
    included), every other key keeps its value; the record stays at its
    place in [users] and the records of the other sockets are as
    before.  The one event, to all, carries the payload and nothing of
    the stored record: the keys of the payload with the payload's
    values, the socket id as [id] when the payload has no [id], and no
    other key. *)
Theorem user_update_merges :
  forall (c : string) (userData user : obj) (st : state),
    mget c (users st) = Some user ->
    let res := user_update c userData st in
    exists record,
      mget c (users res.1) = Some record
      /\ (forall k v, userData !! k = Some v -> record !! k = Some v)
      /\ (forall k, userData !! k = None -> record !! k = user !! k)
      /\ mkeys (users res.1) = mkeys (users st)
      /\ (forall d, d <> c -> mget d (users res.1) = mget d (users st))
      /\ exists o, res.2 = [Emit ToAll (User_updated o)]
           /\ (forall k v, userData !! k = Some v -> o !! k = Some v)
           /\ (userData !! "id" = None -> o !! "id" = Some (JStr c))
           /\ (forall k, userData !! k = None -> k <> "id" -> o !! k = None).
Proof.
  intros c userData user st Hc res. subst res. unfold user_update.
  rewrite Hc. st_simpl. exists (userData ∪ user).
  split; [apply mget_mset_same|].
  split; [intros k v Hk; now apply lookup_union_Some_l|].
  split; [intros k Hk; now apply lookup_union_r|].
  split; [apply mkeys_mset_present; congruence|].
  split; [intros d Hd; now apply mget_mset_other|].
  eexists. split; [reflexivity|]. split; [|split].
  - intros k v Hk. now apply lookup_union_Some_l.
  - intros Hid. rewrite lookup_union_r by assumption.
    apply lookup_insert_eq.
  - intros k Hk Hne. rewrite lookup_union_r by assumption.
    rewrite lookup_insert_ne by congruence. apply lookup_empty.
Qed.

(** The record of a login with [{ name: '', id: 'root', status: 'away' }]
    is updated with [{ name: 'Alice' }]. *)
Lemma user_update_merges_witness :
  let st := (user_login "A" nameless initial).1 in
  let res := user_update "A" alice st in
  exists record,
    mget "A" (users res.1) = Some record
    /\ record !! "name" = Some (JStr "Alice")
    /\ record !! "status" = Some (JStr "away")
    /\ exists o, res.2 = [Emit ToAll (User_updated o)]
         /\ o !! "name" = Some (JStr "Alice")
         /\ o !! "id" = Some (JStr "A")
         /\ o !! "status" = None.
Proof.
  intros st res.
  destruct (user_update_merges "A" alice (login_record "A" nameless) st eq_refl)
    as (record & Hget & Hnew & Hold & _ & _ & o & Hev & Hpay & Hid & Hnone).
  exists record. split; [exact Hget|]. split; [|split].
  - apply Hnew. reflexivity.
  - rewrite Hold; reflexivity.
  - exists o. split; [exact Hev|]. split; [|split].
    + apply Hpay. reflexivity.
    + apply Hid. reflexivity.
    + apply Hnone; [reflexivity | discriminate].
Defined.

Lemma mget_malter_Some {V} (f : V -> V) k (m : jsmap V) v :
  mget k m = Some v -> mget k (malter f k m) = Some (f v).
Proof. intros H. now rewrite mget_malter_same, H. Qed.

(** X14. [user:status] by a logged-in socket sets the [status] of its record
    to the value given, whatever it is, and nothing else: the other keys
    of the record, its place in [users] and the other records are as
    before; the new status is announced to all. *)
Theorem user_status_sets_status :
  forall (c : string) (status : jsval) (user : obj) (st : state),
    mget c (users st) = Some user ->
    let res := user_status c status st in
    exists record,
      mget c (users res.1) = Some record
      /\ field record "status" = status
      /\ (forall k, k <> "status" -> record !! k = user !! k)
      /\ mkeys (users res.1) = mkeys (users st)
      /\ (forall d, d <> c -> mget d (users res.1) = mget d (users st))
      /\ res.2 = [Emit ToAll (User_status_changed c status)].
Proof.
  intros c status user st Hc res. subst res. unfold user_status.
  rewrite Hc. st_simpl. exists (<["status" := status]> user).
  split; [now apply mget_malter_Some|].
  split; [unfold field; now rewrite lookup_insert_eq|].
  split; [intros k Hk; now apply lookup_insert_ne|].
  split; [apply mkeys_malter|].
  split; [intros d Hd; now apply mget_malter_other|reflexivity].
Qed.

Lemma user_status_sets_status_witness :
  let st := (user_login "A" alice initial).1 in
  let res := user_status "A" (JNum 7) st in
  exists record,
    mget "A" (users res.1) = Some record
    /\ field record "status" = JNum 7
    /\ record !! "name" = Some (JStr "Alice").
Proof.
  intros st res.
  destruct (user_status_sets_status "A" (JNum 7) (login_record "A" alice) st
              eq_refl) as (record & Hget & Hstatus & Hold & _).
  exists record. split; [exact Hget|]. split; [exact Hstatus|].
  rewrite Hold; [reflexivity | discriminate].
Defined.

(** X15. A login replaces the record of the socket, it does not merge into
    it: what the record holds afterwards is decided by the payload and
    the socket id alone, a key of the old record that the payload lacks
    and that is not one of [id], [name], [avatar], [status] is gone.
    A socket that logs in again keeps its place in [users]; a new one
    comes last. *)
Theorem login_replaces_record :
  forall (c : string) (userData : obj) (st : state),
    let st' := (user_login c userData st).1 in
    mget c (users st') = Some (login_record c userData)
    /\ (forall k, userData !! k = None ->
          k <> "id" -> k <> "name" -> k <> "avatar" -> k <> "status" ->
          login_record c userData !! k = None)
    /\ (forall d, d <> c -> mget d (users st') = mget d (users st))
    /\ mkeys (users st')
       = (if mhas c (users st) then mkeys (users st)
          else mkeys (users st) ++ [c]).
Proof.
  intros c userData st st'. subst st'. unfold user_login. st_simpl.
  split; [apply mget_mset_same|]. split; [|split].
  - intros k Hk H1 H2 H3 H4. unfold login_record.
    rewrite lookup_union_r by assumption.
    rewrite !lookup_insert_ne by congruence. apply lookup_empty.
  - intros d Hd. now apply mget_mset_other.
  - apply mkeys_mset.
Qed.

(** ** Direct messages *)

(** X16. [dm:send] always records: whoever the recipient is, connected or
    not, the message is appended to the history of the pair, seen from
    either side, and to no history under another key; the same message
    goes to the Socket.IO room named by the recipient and back to the
    sender.  A sender without a user record is named 'Anônimo', a payload
    without a type gives a message of type 'text'.  Users, rooms, streams
    and the adapter are not touched. *)
Theorem dm_send_records :
  forall (c : string) (data : dm_data) (uuid now : string) (st : state),
    let m := make_message c data uuid now st in
    let res := dm_send c data uuid now st in
    history c (dm_to data) res.1 = history c (dm_to data) st ++ [m]
    /\ history (dm_to data) c res.1 = history (dm_to data) c st ++ [m]
    /\ (forall a b, convId a b <> convId c (dm_to data) ->
          history a b res.1 = history a b st)
    /\ res.2 = [ Emit (ToRoom (dm_to data)) (Dm_receive m);
                 Emit (ToSocket c) (Dm_sent m) ]
    /\ (msg_id m, msg_from m, msg_to m) = (uuid, c, dm_to data)
    /\ (mget c (users st) = None -> msg_fromName m = JStr "Anônimo")
    /\ (dm_type data = JUndefined -> msg_type m = JStr "text")
    /\ (users res.1, voiceRooms res.1, streams res.1, sids res.1)
       = (users st, voiceRooms st, streams st, sids st).
Proof.
  intros c data uuid now st m res. subst m res.
  split; [now apply history_dm_send|].
  split; [apply history_dm_send, convId_comm|].
  split.
  - intros a b Hne. unfold history, dm_send. st_simpl.
    now rewrite mget_append_message_other.
  - split; [reflexivity|]. split; [reflexivity|]. split; [|split].
    + intros Hc. unfold make_message. simpl. now rewrite Hc.
    + intros Ht. unfold make_message. simpl. now rewrite Ht.
    + reflexivity.
Qed.

Lemma history_step a b c o st :
  exists l, history a b (step c o st).1 = history a b st ++ l.
Proof.
  destruct o; try (exists []; rewrite app_nil_r; unfold history;
                   rewrite step_conversations; [reflexivity | discriminate]).
  cbn [step].
  destruct (string_dec (convId a b) (convId c (dm_to data))) as [Heq|Hne].
  - eexists. now apply history_dm_send.
  - exists []. rewrite app_nil_r. unfold history, dm_send. st_simpl.
    now rewrite mget_append_message_other.
Qed.

(** X17. Histories are append-only: whatever the server handles, the history
    of a pair afterwards starts with the history before.  Nothing edits
    or removes a stored message, a disconnection included. *)
Theorem history_append_only :
  forall (tr : list (string * op)) (a b : string) (st : state),
    exists l, history a b (exec tr st) = history a b st ++ l.
Proof.
  induction tr as [|[c o] tr IH]; intros a b st.
  - exists []. unfold exec. simpl. now rewrite app_nil_r.
  - rewrite exec_cons. destruct (IH a b (step c o st).1) as (l2 & ->).
    destruct (history_step a b c o st) as (l1 & ->).
    exists (l1 ++ l2). now rewrite app_assoc.
Qed.

(** ** Rooms and conversations are never removed *)

Lemma mkeys_strip_member c rs :
  mkeys (List.map (strip_member c) rs) = mkeys rs.
Proof. unfold mkeys, strip_member. now rewrite List.map_map. Qed.

Lemma room_keys_step c o st :
  exists l, mkeys (voiceRooms (step c o st).1) = mkeys (voiceRooms st) ++ l.
Proof.
  assert (Hsame : forall st', mkeys (voiceRooms st') = mkeys (voiceRooms st) ->
            exists l, mkeys (voiceRooms st') = mkeys (voiceRooms st) ++ l).
  { intros st' ->. exists []. now rewrite app_nil_r. }
  destruct o; simpl; try (apply Hsame; reflexivity).
  - apply Hsame. unfold user_update. now destruct (mget c (users st)).
  - apply Hsame. unfold user_status. now destruct (mget c (users st)).
  - apply Hsame.
    destruct (mget roomId (voiceRooms st)) as [r|] eqn:Hr;
      [|unfold voice_join; now rewrite Hr].
    destruct (room_full r) eqn:Hfull;
      [unfold voice_join; now rewrite Hr, Hfull|].
    destruct (voice_join_admitted_eq c roomId st r Hr Hfull) as (_ & -> & _).
    now rewrite mkeys_malter, mkeys_strip_member.
  - apply Hsame. unfold voice_leave.
    destruct (mget roomId (voiceRooms st)) as [r|]; [|reflexivity].
    destruct (shas c (room_users r)); [|reflexivity]. st_simpl.
    apply mkeys_malter.
  - st_simpl. rewrite mkeys_mset. destruct (mhas _ _).
    + exists []. now rewrite app_nil_r.
    + eexists. reflexivity.
  - apply Hsame. unfold stream_stop.
    destruct (mget streamId (streams st)) as [s|]; [|reflexivity].
    now destruct (String.eqb (stream_userId s) c).
  - apply Hsame. unfold stream_watch.
    now destruct (mget streamId (streams st)).
  - apply Hsame. rewrite disconnect_eq. st_simpl.
    apply mkeys_strip_member.
Qed.

Lemma conversation_keys_step c o st :
  exists l,
    mkeys (conversations (step c o st).1) = mkeys (conversations st) ++ l.
Proof.
  destruct o; try (exists []; rewrite app_nil_r;
                   rewrite step_conversations; [reflexivity | discriminate]).
  cbn [step]. unfold dm_send, append_message. st_simpl.
  rewrite mkeys_malter. destruct (mhas _ _) eqn:E.
  - exists []. now rewrite app_nil_r.
  - rewrite mkeys_mset, E. eexists. reflexivity.
Qed.

(** X18. No event removes a voice room or a conversation: along any run the
    ids of the rooms and the keys of the conversations before are still
    there, in the same order, with the new ones after them; so the
    [voiceRooms] and [activeConversations] that [GET /stats] reports, and
    the list of rooms of [GET /], never shrink. *)
Theorem rooms_and_conversations_stay :
  forall (tr : list (string * op)) (st : state),
    (exists l, mkeys (voiceRooms (exec tr st)) = mkeys (voiceRooms st) ++ l)
    /\ (exists l, mkeys (conversations (exec tr st))
                  = mkeys (conversations st) ++ l)
    /\ stats_voiceRooms (http_stats st)
       <= stats_voiceRooms (http_stats (exec tr st))
    /\ stats_activeConversations (http_stats st)
       <= stats_activeConversations (http_stats (exec tr st))
    /\ length (root_voiceRooms (http_root st))
       <= length (root_voiceRooms (http_root (exec tr st))).
Proof.
  intros tr st.
  assert (H : (exists l, mkeys (voiceRooms (exec tr st))
                         = mkeys (voiceRooms st) ++ l)
              /\ (exists l, mkeys (conversations (exec tr st))
                            = mkeys (conversations st) ++ l)).
  { revert st. induction tr as [|[c o] tr IH]; intros st.
    - split; exists []; unfold exec; simpl; now rewrite app_nil_r.
    - rewrite exec_cons.
      destruct (IH (step c o st).1) as [(l2 & ->) (l2' & ->)].
      destruct (room_keys_step c o st) as (l1 & ->).
      destruct (conversation_keys_step c o st) as (l1' & ->).
      split; eexists; now rewrite <- app_assoc. }
  destruct H as [(l & Hr) (l' & Hc)].
  split; [eauto|]. split; [eauto|].
  apply (f_equal (@length string)) in Hr, Hc.
  unfold mkeys in Hr, Hc. rewrite length_app, !length_map in Hr, Hc.
  unfold http_stats, http_root. simpl. rewrite !length_map. lia.
Qed.

(** ** When the conversation key tells pairs apart *)

Lemma app_sep_inj x1 y1 x2 y2 :
  has_sep x1 = false -> has_sep x2 = false ->
  (x1 ++ "-" ++ y1 = x2 ++ "-" ++ y2)%string -> x1 = x2 /\ y1 = y2.
Proof.
  revert x2. induction x1 as [|a x1 IH]; intros [|b x2]; simpl.
  - intros _ _ Heq. injection Heq as Heq. auto.
  - intros _ H Heq. injection Heq as Hb _. subst b. discriminate H.
  - intros H _ Heq. injection Heq as Ha _. subst a. discriminate H.
  - rewrite !orb_false_iff. intros [_ H1] [_ H2] Heq.
    injection Heq as Hab Heq. subst b.
    destruct (IH _ H1 H2 Heq) as [Hx Hy]. subst. auto.
Qed.

Lemma app_length_inj x1 y1 x2 y2 :
  String.length x1 = String.length x2 ->
  (x1 ++ y1 = x2 ++ y2)%string -> x1 = x2 /\ y1 = y2.
Proof.
  revert x2. induction x1 as [|a x1 IH]; intros [|b x2]; simpl;
    try discriminate.
  - auto.
  - intros Hlen Heq. injection Hlen as Hlen. injection Heq as Hab Heq.
    subst b. destruct (IH _ Hlen Heq) as [Hx Hy]. subst. auto.
Qed.

Lemma convId_sorted a b :
  exists x y, convId a b = (x ++ "-" ++ y)%string
              /\ ((x = a /\ y = b) \/ (x = b /\ y = a)).
Proof.
  unfold convId, sort2. destruct (String.ltb b a); simpl; eauto 6.
Qed.

(** X19. On identifiers that do not contain the separator, the conversation
    key tells unordered pairs apart: two pairs with one key are the same
    pair. *)
Theorem convId_injective_without_separator :
  forall a b c d : string,
    has_sep a = false -> has_sep b = false ->
    has_sep c = false -> has_sep d = false ->
    convId a b = convId c d ->
    same_pair a b c d.
Proof.
  intros a b c d Ha Hb Hc Hd Heq.
  destruct (convId_sorted a b) as (x1 & y1 & E1 & H1).
  destruct (convId_sorted c d) as (x2 & y2 & E2 & H2).
  rewrite E1, E2 in Heq.
  assert (x1 = x2 /\ y1 = y2) as [-> ->].
  { apply app_sep_inj; [| |exact Heq].
    - destruct H1 as [[-> _]|[-> _]]; assumption.
    - destruct H2 as [[-> _]|[-> _]]; assumption. }
  unfold same_pair.
  destruct H1 as [[<- <-]|[<- <-]], H2 as [[<- <-]|[<- <-]]; auto.
Qed.

Lemma convId_injective_without_separator_witness :
  same_pair "alice" "bob" "bob" "alice".
Proof.
  apply convId_injective_without_separator; reflexivity.
Defined.

(** X20. The same on identifiers of one length, as the socket ids the
    transport hands out are, whatever characters they contain. *)
Theorem convId_injective_same_length :
  forall (n : nat) (a b c d : string),
    String.length a = n -> String.length b = n ->
    String.length c = n -> String.length d = n ->
    convId a b = convId c d ->
    same_pair a b c d.
Proof.
  intros n a b c d Ha Hb Hc Hd Heq.
  destruct (convId_sorted a b) as (x1 & y1 & E1 & H1).
  destruct (convId_sorted c d) as (x2 & y2 & E2 & H2).
  rewrite E1, E2 in Heq.
  assert (x1 = x2 /\ ("-" ++ y1 = "-" ++ y2)%string) as [-> Hy].
  { apply app_length_inj; [|exact Heq].
    destruct H1 as [[-> _]|[-> _]], H2 as [[-> _]|[-> _]]; congruence. }
  injection Hy as Hy. change (y1 = y2) in Hy. subst y2.
  unfold same_pair.
  destruct H1 as [[<- <-]|[<- <-]], H2 as [[<- <-]|[<- <-]]; auto.
Qed.

Lemma convId_injective_same_length_witness :
  same_pair "Xq-3_aB9" "k2-Zp0_w" "k2-Zp0_w" "Xq-3_aB9".
Proof.
  apply (convId_injective_same_length 8); reflexivity.
Defined.

(** ** Only connected sockets are mentioned *)

Section Connected.
Context {V : Type}.
Implicit Types (k c : string) (m : jsmap V).

Lemma mhas_malter (f : V -> V) k m c : mhas c (malter f k m) = mhas c m.
Proof.
  unfold mhas. destruct (string_dec c k) as [->|Hne].
  - rewrite mget_malter_same. now destruct (mget k m).
  - now rewrite mget_malter_other.
Qed.

Lemma mhas_mset_same k (v : V) m : mhas k (mset k v m) = true.
Proof. unfold mhas. now rewrite mget_mset_same. Qed.

Lemma mhas_mset_other k (v : V) m c : c <> k -> mhas c (mset k v m) = mhas c m.
Proof. intros H. unfold mhas. now rewrite mget_mset_other. Qed.

Lemma mhas_mset_mono k (v : V) m c : mhas c m = true -> mhas c (mset k v m) = true.
Proof.
  intros H. destruct (string_dec c k) as [->|Hne].
  - apply mhas_mset_same.
  - now rewrite mhas_mset_other.
Qed.

Lemma mhas_mdelete_other k m c : c <> k -> mhas c (mdelete k m) = mhas c m.
Proof. intros H. unfold mhas. now rewrite mget_mdelete_other. Qed.

Lemma Forall_mdelete (P Q : string * V -> Prop) k m :
  (forall e, P e -> e.1 <> k -> Q e) ->
  List.Forall P m -> List.Forall Q (mdelete k m).
Proof.
  intros HPQ. unfold mdelete. induction 1 as [|[k' v] m Hx Hm IH]; simpl;
    [constructor|].
  destruct (String.eqb k k') eqn:E; simpl; [exact IH|].
  constructor; [|exact IH]. apply HPQ; [exact Hx|].
  apply String.eqb_neq in E. simpl. congruence.
Qed.
End Connected.

Lemma Forall_sdelete (P Q : string -> Prop) c (s : jsset) :
  (forall d, P d -> d <> c -> Q d) ->
  List.Forall P s -> List.Forall Q (sdelete c s).
Proof.
  intros HPQ. induction 1 as [|d s Hd Hs IH]; simpl; [constructor|].
  destruct (String.eqb c d) eqn:E; simpl; [exact IH|].
  constructor; [|exact IH]. apply HPQ; [exact Hd|].
  apply String.eqb_neq in E. congruence.
Qed.

Lemma Forall_sadd (P : string -> Prop) c (s : jsset) :
  P c -> List.Forall P s -> List.Forall P (sadd c s).
Proof.
  intros Hc Hs. unfold sadd. destruct (shas c s); [exact Hs|].
  apply List.Forall_app. split; [exact Hs|]. now constructor.
Qed.

(** The invariant moves along a change of the adapter that forgets no
    socket. *)
Lemma no_ghosts_adapter us rs cs ss ad ad' :
  (forall c, connected ad c -> connected ad' c) ->
  no_ghosts (State us rs cs ss ad) -> no_ghosts (State us rs cs ss ad').
Proof.
  intros Hmono (Hu & Hr & Hs). unfold no_ghosts in *. simpl in *.
  split; [|split].
  - revert Hu. apply List.Forall_impl. intros e. apply Hmono.
  - revert Hr. apply List.Forall_impl. intros e.
    apply List.Forall_impl. exact Hmono.
  - revert Hs. apply List.Forall_impl. intros e [Ho Hv]. split.
    + now apply Hmono.
    + revert Hv. apply List.Forall_impl. exact Hmono.
Qed.

Lemma no_ghosts_step c o st :
  match o with
  | Connection => True
  | _ => connected (sids st) c
  end ->
  no_ghosts st -> no_ghosts (step c o st).1.
Proof.
  intros Hc Hg. destruct st as [us rs cs ss ad].
  destruct o; cbn [step]; try exact Hg.
  - (* connection *)
    unfold connection. st_simpl. eapply no_ghosts_adapter; [|exact Hg].
    intros d. apply mhas_mset_mono.
  - (* user:login *)
    destruct Hg as (Hu & Hr & Hs). unfold user_login. st_simpl.
    split; [|split; assumption]. simpl. now apply Forall_mset.
  - (* user:update *)
    destruct Hg as (Hu & Hr & Hs). unfold user_update. st_simpl.
    destruct (mget c us); [|repeat split; assumption].
    split; [|split; assumption]. simpl. now apply Forall_mset.
  - (* user:status *)
    destruct Hg as (Hu & Hr & Hs). unfold user_status. st_simpl.
    destruct (mget c us); [|repeat split; assumption].
    split; [|split; assumption]. simpl. apply Forall_malter; [|exact Hu]. auto.
  - (* voice:join *)
    destruct (mget roomId rs) as [r|] eqn:Hr;
      [|unfold voice_join; st_simpl; now rewrite Hr].
    destruct (room_full r) eqn:Hfull;
      [unfold voice_join; st_simpl; now rewrite Hr, Hfull|].
    pose proof (voice_join_admitted_eq c roomId (State us rs cs ss ad) r
                  Hr Hfull) as (Hus & Hrs & Hcs & Hss & _).
    assert (Hmono : forall d, connected ad d ->
              connected (sids (voice_join c roomId (State us rs cs ss ad)).1) d).
    { intros d Hd. unfold voice_join. st_simpl. rewrite Hr, Hfull.
      clear Hus Hrs Hcs Hss.
      assert (Hl : forall rs0 ad0, connected ad0 d ->
                connected (join_leave_others c (opt_field (mget c us) "name")
                             rs0 ad0).1.2 d).
      { induction rs0 as [|[id r0] rs0 IH]; intros ad0 Hd0; [exact Hd0|].
        cbn [join_leave_others]. destruct (shas c (room_users r0)).
        - specialize (IH (socket_leave c (voice_room id) ad0)).
          destruct (join_leave_others c _ rs0 _) as [[rs' ad'] evs].
          apply IH. unfold connected, socket_leave. now rewrite mhas_malter.
        - specialize (IH ad0 Hd0).
          now destruct (join_leave_others c _ rs0 ad0) as [[rs' ad'] evs]. }
      specialize (Hl rs ad Hd).
      destruct (join_leave_others c _ rs ad) as [[rs1 ad1] gone]. st_simpl.
      unfold connected, socket_join. now rewrite mhas_malter. }
    destruct (voice_join c roomId (State us rs cs ss ad)) as [st' evs].
    destruct st' as [us' rs' cs' ss' ad']. st_simpl. subst us' rs' cs' ss'.
    destruct Hg as (Hu & Hrm & Hs).
    assert (Hg1 : no_ghosts
              (State us
                 (malter (room_with_users (sadd c)) roomId
                    (List.map (strip_member c) rs)) cs ss ad)).
    { split; [exact Hu|]. split; [|exact Hs]. st_simpl.
      apply Forall_malter.
      - intros v _ Hv. simpl in *. now apply Forall_sadd.
      - apply List.Forall_map. revert Hrm. apply List.Forall_impl.
        intros e He. simpl. revert He. apply Forall_sdelete. auto. }
    revert Hg1. now apply no_ghosts_adapter.
  - (* voice:leave *)
    unfold voice_leave. st_simpl. destruct (mget roomId rs) as [r|];
      [|exact Hg].
    destruct (shas c (room_users r)); [|exact Hg]. st_simpl.
    apply (no_ghosts_adapter us _ cs ss ad).
    { intros d Hd. unfold connected, socket_leave. now rewrite mhas_malter. }
    destruct Hg as (Hu & Hrm & Hs). split; [exact Hu|]. split; [|exact Hs].
    st_simpl. apply Forall_malter; [|exact Hrm].
    intros v _ Hv. simpl in *. revert Hv. apply Forall_sdelete. auto.
  - (* voice:create-room *)
    destruct Hg as (Hu & Hrm & Hs). unfold voice_create_room. st_simpl.
    split; [exact Hu|]. split; [|exact Hs]. st_simpl.
    apply Forall_mset; [constructor | exact Hrm].
  - (* stream:start *)
    unfold stream_start. st_simpl.
    apply (no_ghosts_adapter us rs cs _ ad).
    { intros d Hd. unfold connected, socket_join. now rewrite mhas_malter. }
    destruct Hg as (Hu & Hrm & Hs). split; [exact Hu|]. split; [exact Hrm|].
    st_simpl. apply Forall_mset; [|exact Hs]. simpl. split; [exact Hc|constructor].
  - (* stream:stop *)
    unfold stream_stop. st_simpl. destruct (mget streamId ss) as [s|];
      [|exact Hg].
    destruct (String.eqb (stream_userId s) c); [|exact Hg]. st_simpl.
    destruct Hg as (Hu & Hrm & Hs). split; [exact Hu|]. split; [exact Hrm|].
    st_simpl. revert Hs. apply Forall_mdelete. auto.
  - (* stream:watch *)
    unfold stream_watch. st_simpl. destruct (mget streamId ss) as [s|];
      [|exact Hg]. st_simpl.
    apply (no_ghosts_adapter us rs cs _ ad).
    { intros d Hd. unfold connected, socket_join. now rewrite mhas_malter. }
    destruct Hg as (Hu & Hrm & Hs). split; [exact Hu|]. split; [exact Hrm|].
    st_simpl. apply Forall_malter; [|exact Hs].
    intros v _ [Ho Hv]. simpl in *. split; [exact Ho|]. now apply Forall_sadd.
  - (* disconnect *)
    rewrite disconnect_eq. st_simpl.
    destruct Hg as (Hu & Hrm & Hs). st_simpl.
    assert (Hkeep : forall d, connected ad d -> d <> c ->
              connected (mdelete c ad) d).
    { intros d Hd Hne. unfold connected. now rewrite mhas_mdelete_other. }
    split; [|split]; st_simpl.
    + revert Hu. apply Forall_mdelete. intros e He Hne. now apply Hkeep.
    + apply List.Forall_map. revert Hrm. apply List.Forall_impl.
      intros e He. simpl. revert He. now apply Forall_sdelete.
    + apply List.Forall_map.
      apply List.Forall_forall. intros e Hin.
      apply filter_In in Hin as [Hin Hown].
      rewrite List.Forall_forall in Hs. destruct (Hs e Hin) as [Ho Hv].
      unfold owned_by in Hown. apply negb_true_iff, String.eqb_neq in Hown.
      simpl. split; [now apply Hkeep|].
      revert Hv. now apply Forall_sdelete.
Qed.

Lemma no_ghosts_exec tr st :
  live tr st = true -> no_ghosts st -> no_ghosts (exec tr st).
Proof.
  revert st. induction tr as [|[c o] tr IH]; intros st; [intros _ H; exact H|].
  cbn [live]. rewrite andb_true_iff. intros [Hc Htr] Hg.
  rewrite exec_cons. apply IH; [exact Htr|].
  apply no_ghosts_step; [|exact Hg].
  destruct o; try exact I; exact Hc.
Qed.

(** X21. In a run the transport can produce (a new socket has a new id, only
    connected sockets send events, a disconnected socket sends nothing
    more), the maps mention connected sockets only: whoever has a user
    record, sits in a voice room, broadcasts a stream or watches one is
    connected.  A disconnection leaves nothing of the socket behind. *)
Theorem only_connected_sockets :
  forall tr : list (string * op),
    live tr initial = true ->
    let st := exec tr initial in
    (forall c, mhas c (users st) = true -> mhas c (sids st) = true)
    /\ (forall id r c, In (id, r) (voiceRooms st) ->
          shas c (room_users r) = true -> mhas c (sids st) = true)
    /\ (forall id s, In (id, s) (streams st) ->
          mhas (stream_userId s) (sids st) = true
          /\ forall c, shas c (stream_viewers s) = true ->
               mhas c (sids st) = true).
Proof.
  intros tr Htr st.
  assert (Hg : no_ghosts st).
  { apply no_ghosts_exec; [exact Htr|]. repeat split; simpl; repeat constructor. }
  destruct Hg as (Hu & Hr & Hs). rewrite List.Forall_forall in Hu, Hr, Hs.
  split; [|split].
  - intros c Hc. apply mhas_keys in Hc. unfold mkeys in Hc.
    apply in_map_iff in Hc as (e & <- & Hin). exact (Hu e Hin).
  - intros id r c Hin Hc. specialize (Hr _ Hin). simpl in Hr.
    rewrite List.Forall_forall in Hr. apply Hr. now apply shas_In.
  - intros id s Hin. destruct (Hs _ Hin) as [Ho Hv]. split; [exact Ho|].
    intros c Hc. simpl in Hv. rewrite List.Forall_forall in Hv.
    apply Hv. now apply shas_In.
Qed.

Lemma only_connected_sockets_witness :
  let st := exec evening initial in
  mkeys (sids st) = ["B"]
  /\ (forall c, mhas c (users st) = true -> mhas c (sids st) = true)
  /\ mkeys (users st) = ["B"]
  /\ mkeys (streams st) = ["7c3e9a10"]
  /\ viewers "7c3e9a10" (streams st) = [].
Proof.
  intros st.
  destruct (only_connected_sockets evening eq_refl) as (Hu & _).
  split; [reflexivity|]. split; [exact Hu|]. repeat split; reflexivity.
Defined.

(** ** Conversations among other events *)








